(** * update_api_keys.py: the migration that adds [use_api_key] to model files

    A shallow embedding of [src/update_api_keys.py] and the properties of
    its specification.

    Conventions of the embedding.
    - A Python [str] is a list of Unicode code points ([N]).  The
      contents of a file are the characters its bytes decode to.  A
      file is read in text mode, which turns every line end (CR LF, CR
      or LF) into LF; it is written in text mode on a POSIX system,
      where [os.linesep] is LF and the text is stored as it is.
    - The [re] module is embedded as the backtracking matcher of its
      compiled form: a pattern is a list of opcodes, named as in
      [sre_constants].
    - The interpreter's Unicode tables (which code points from 128 on
      are alphanumeric, which are white space) are not part of the
      repository: they are a parameter, [ucd].
    - Effects (the file store, the console, exceptions) are threaded
      through a state-and-exception monad [M].
    - A world holds the files that can be opened and decoded; a path
      at which there is none, or a directory, is absent from it, and
      opening it raises OSError.  A write to a file and a print are
      taken to succeed: a store that refuses the write and a console
      that cannot encode a line are outside the model. *)

From Stdlib Require Import NArith List String Ascii Bool Lia DecimalString.
From stdpp Require Import gmap.
Import ListNotations.

Local Open Scope N_scope.
Local Open Scope nat_scope.
Local Open Scope list_scope.

(** ** Python strings *)

Abbreviation str := (list N).

(** An ASCII literal as a [str]. *)
Definition py (s : string) : str := map N_of_ascii (list_ascii_of_string s).
Arguments py s%_string.

Definition DQUOTE : N := 34%N.   (* the double quote *)
Definition SQUOTE : N := 39%N.   (* the single quote *)
Definition NEWLINE : N := 10%N.  (* the escape [\n] *)
Definition CR : N := 13%N.       (* the escape [\r] *)
Definition BACKSLASH : N := 92%N.
Definition SLASH : N := 47%N.

(** [s.startswith(w)] *)
Fixpoint startswith (w s : str) : bool :=
  match w, s with
  | [], _ => true
  | _ :: _, [] => false
  | a :: w', b :: s' => N.eqb a b && startswith w' s'
  end.

(** [s.endswith(w)] *)
Definition endswith (w s : str) : bool := startswith (rev w) (rev s).

(** [w in s], the substring test. *)
Fixpoint contains (w s : str) : bool :=
  startswith w s ||
  match s with
  | [] => false
  | _ :: s' => contains w s'
  end.

(** [bool(s)]: a string is true when it is not empty. *)
Definition truthy (s : str) : bool :=
  match s with [] => false | _ :: _ => true end.

Definition str_eqb (a b : str) : bool := bool_decide (a = b).

(** [x in xs] for a list of strings. *)
Definition str_in (x : str) (xs : list str) : bool := existsb (str_eqb x) xs.

(** [str(n)] for a non-negative [int]. *)
Definition str_of_nat (n : nat) : str := py (NilZero.string_of_uint (Nat.to_uint n)).

Fixpoint take_while (f : N -> bool) (s : str) : str :=
  match s with
  | [] => []
  | c :: s' => if f c then c :: take_while f s' else []
  end.

Fixpoint drop_while (f : N -> bool) (s : str) : str :=
  match s with
  | [] => []
  | c :: s' => if f c then drop_while f s' else s
  end.

(** ** The [re] engine *)

Module Sre.

(** The opcodes the program's patterns compile to.  [IN set] matches one
    character of [set]; [MAX_REPEAT lo set] is the greedy repetition
    [set{lo,}] of a one-character item; [MARK i] stores the current
    position in mark [i] (group [k] lies between marks [2k-2] and
    [2k-1]). *)
Inductive op : Type :=
| LITERAL (c : N)
| IN (set : N -> bool)
| MAX_REPEAT (lo : nat) (set : N -> bool)
| MARK (i : nat).

Definition pattern := list op.

(** A literal run of the pattern text. *)
Definition literals (w : str) : pattern := map LITERAL w.

(** [[...]] and [[^...]] over listed characters. *)
Definition one_of (cs : list N) (c : N) : bool := existsb (N.eqb c) cs.
Definition none_of (cs : list N) (c : N) : bool := negb (one_of cs c).

Definition marks := list (nat * nat).

Definition mark_get (i : nat) (ms : marks) : option nat :=
  option_map snd (find (fun m => Nat.eqb (fst m) i) ms).

(** Match [p] against the text [s], which begins [pos] characters after
    the start of the match.  The result is the length of the match and
    the marks, both counted from the start of the match.  A repetition
    takes as many characters as it can and gives them back one at a time
    while the rest of the pattern fails. *)
Fixpoint sre_match (p : pattern) (s : str) (pos : nat) (ms : marks)
  : option (nat * marks) :=
  match p with
  | [] => Some (pos, ms)
  | LITERAL c :: p' =>
      match s with
      | x :: s' => if N.eqb x c then sre_match p' s' (S pos) ms else None
      | [] => None
      end
  | IN set :: p' =>
      match s with
      | x :: s' => if set x then sre_match p' s' (S pos) ms else None
      | [] => None
      end
  | MARK i :: p' => sre_match p' s pos ((i, pos) :: ms)
  | MAX_REPEAT lo set :: p' =>
      (fix repeat (s : str) (pos count : nat) {struct s} : option (nat * marks) :=
         let tail := if Nat.leb lo count then sre_match p' s pos ms else None in
         match s with
         | x :: s' =>
             if set x then
               match repeat s' (S pos) (S count) with
               | Some r => Some r
               | None => tail
               end
             else tail
         | [] => tail
         end) s pos 0
  end.

(** A pattern refuses a class of characters when it fails on every text
    that begins with one of them. *)
Definition refuses (p : pattern) (set : N -> bool) : Prop :=
  forall x s pos ms, set x = true -> sre_match p (x :: s) pos ms = None.

(** Number of capturing groups of a pattern. *)
Definition is_mark (o : op) : bool :=
  match o with MARK _ => true | _ => false end.

Definition groups (p : pattern) : nat := Nat.div2 (length (List.filter is_mark p)).

(** A match object: where the match starts in the searched string, its
    length, the text from the start of the match on, and the marks. *)
Record match_obj : Type := {
  m_start : nat;
  m_length : nat;
  m_text : str;
  m_marks : marks
}.

(** The text between two marks of a match that starts at [s]. *)
Definition between (s : str) (ms : marks) (i j : nat) : str :=
  match mark_get i ms, mark_get j ms with
  | Some a, Some b => firstn (b - a) (skipn a s)
  | _, _ => []
  end.

(** [m.group(k)] for [k >= 1].  Every group of the patterns below takes
    part in every match, so Python's [None] for a group that did not
    take part does not arise. *)
Definition group (m : match_obj) (k : nat) : str :=
  between (m_text m) (m_marks m) (2 * k - 2) (2 * k - 1).

(** [re.search]: the match at the leftmost position that has one. *)
Fixpoint search_from (p : pattern) (s : str) (start : nat) : option match_obj :=
  match sre_match p s 0 [] with
  | Some (n, ms) =>
      Some {| m_start := start; m_length := n; m_text := s; m_marks := ms |}
  | None =>
      match s with
      | [] => None
      | _ :: s' => search_from p s' (S start)
      end
  end.

Definition re_search (p : pattern) (text : str) : option match_obj :=
  search_from p text 0.

(** A parsed replacement template. *)
Inductive piece : Type :=
| Text (c : N)
| Group (k : nat).

Definition digit_of (c : N) : option nat :=
  if (N.leb 49 c && N.leb c 57)%N then Some (N.to_nat c - 48) else None.

Definition is_digit (c : N) : bool := (N.leb 48 c && N.leb c 57)%N.

(** [re._parser.parse_template], for the templates of this program: a
    backslash and one digit [1]..[9] not followed by another digit is a
    group reference, checked against the pattern's groups; backslash-n
    is a line feed; every other character stands for itself.  [None]
    stands for [re.error] and for the escapes left out of this model
    (named groups, octal codes, the other letters). *)
Fixpoint parse_template (ngroups : nat) (t : str) : option (list piece) :=
  match t with
  | [] => Some []
  | c :: t' =>
      if N.eqb c BACKSLASH then
        match t' with
        | [] => None
        | e :: t'' =>
            if N.eqb e 110%N then
              option_map (cons (Text NEWLINE)) (parse_template ngroups t'')
            else
              match digit_of e with
              | Some k =>
                  let next_is_digit :=
                    match t'' with d :: _ => is_digit d | [] => false end in
                  if next_is_digit then None
                  else if Nat.leb k ngroups then
                    option_map (cons (Group k)) (parse_template ngroups t'')
                  else None
              | None => None
              end
        end
      else option_map (cons (Text c)) (parse_template ngroups t')
  end.

(** [match.expand] on a parsed template. *)
Fixpoint expand (t : list piece) (s : str) (ms : marks) : str :=
  match t with
  | [] => []
  | Text c :: t' => c :: expand t' s ms
  | Group k :: t' => between s ms (2 * k - 2) (2 * k - 1) ++ expand t' s ms
  end.

(** The loop of [re.sub]: scan left to right; where the pattern matches,
    emit the expanded template and go on after the match; elsewhere copy
    one character.  [skip] counts the characters of the current match
    still to be passed over, which keeps the recursion structural.  An
    empty match emits the template and copies the next character. *)
Fixpoint sub_from (p : pattern) (t : list piece) (s : str) (skip : nat) : str :=
  match s with
  | [] =>
      match skip with
      | 0 =>
          match sre_match p [] 0 [] with
          | Some (_, ms) => expand t [] ms
          | None => []
          end
      | S _ => []
      end
  | c :: s' =>
      match skip with
      | S k => sub_from p t s' k
      | 0 =>
          match sre_match p s 0 [] with
          | Some (n, ms) =>
              expand t s ms ++
              match n with
              | 0 => c :: sub_from p t s' 0
              | S k => sub_from p t s' k
              end
          | None => c :: sub_from p t s' 0
          end
      end
  end.

(** [re.sub(pattern, repl, string)]; [None] is [re.error]. *)
Definition re_sub (p : pattern) (repl : str) (text : str) : option str :=
  option_map (fun t => sub_from p t text 0) (parse_template (groups p) repl).

End Sre.

(** ** Character categories *)

(** The rows of the interpreter's Unicode database that the patterns
    consult for code points from 128 on: [Py_UNICODE_ISALNUM] and
    [Py_UNICODE_ISSPACE]. *)
Record ucd : Type := {
  uni_isalnum : N -> bool;
  uni_isspace : N -> bool
}.

Definition in_range (lo hi c : N) : bool := (N.leb lo c && N.leb c hi)%N.

(** [_Py_ascii_whitespace]: TAB, LF, VT, FF, CR, FS, GS, RS, US, space. *)
Definition ascii_isspace (c : N) : bool :=
  in_range 9 13 c || in_range 28 31 c || N.eqb c 32.

Definition ascii_isalnum (c : N) : bool :=
  in_range 48 57 c || in_range 65 90 c || in_range 97 122 c.

(** ** The program *)

(** Exceptions that reach the caller. *)
Inductive exn : Type :=
| OSError     (* [open] on a path that is not a readable regular file *)
| re_error.   (* a bad replacement template *)

(** What the program can see and change: for a directory, the paths of
    everything below it (relative to it, in the order a recursive scan
    meets them); the text of each regular file; the lines printed so
    far. *)
Record world : Type := {
  dirs : gmap str (list str);
  files : gmap str str;
  console : list str
}.

Inductive result (A : Type) : Type :=
| Ok (a : A) (w : world)
| Raise (e : exn) (w : world).
Arguments Ok {A} a w.
Arguments Raise {A} e w.

Definition M (A : Type) : Type := world -> result A.

Definition ret {A} (a : A) : M A := fun w => Ok a w.

Definition bind {A B} (c : M A) (k : A -> M B) : M B :=
  fun w =>
    match c w with
    | Ok a w' => k a w'
    | Raise e w' => Raise e w'
    end.

Definition raise {A} (e : exn) : M A := fun w => Raise e w.

Declare Scope py_scope.
Delimit Scope py_scope with py.
Notation "'let*' x := c 'in' k" := (bind c (fun x => k))
  (at level 10, x pattern, c at level 100, k at level 200) : py_scope.
Local Open Scope py_scope.

(** What reading in text mode makes of the characters of a file:
    universal newlines, each of CR LF, CR and LF becomes LF. *)
Fixpoint universal_newlines (raw : str) : str :=
  match raw with
  | [] => []
  | c :: rest =>
      if N.eqb c CR then
        match rest with
        | n :: rest' =>
            if N.eqb n NEWLINE then NEWLINE :: universal_newlines rest'
            else NEWLINE :: universal_newlines rest
        | [] => [NEWLINE]
        end
      else c :: universal_newlines rest
  end.

(** The text a read of [path] returns, where the file can be read. *)
Definition text_of (w : world) (path : str) : option str :=
  option_map universal_newlines (files w !! path).

(** [with open(path, 'r') as f: f.read()] *)
Definition read_text (path : str) : M str :=
  fun w =>
    match text_of w path with
    | Some content => Ok content w
    | None => Raise OSError w
    end.

(** The world after a file is overwritten, and after lines are printed. *)
Definition with_file (path text : str) (w : world) : world :=
  {| dirs := dirs w; files := <[path := text]> (files w); console := console w |}.

Definition with_lines (lines : list str) (w : world) : world :=
  {| dirs := dirs w; files := files w; console := console w ++ lines |}.

(** [with open(path, 'w') as f: f.write(text)] *)
Definition write_text (path text : str) : M unit :=
  fun w => Ok tt (with_file path text w).

(** [print(line)] *)
Definition print (line : str) : M unit :=
  fun w => Ok tt (with_lines [line] w).

(** [Path.name]: the last component of a path. *)
Definition name (path : str) : str :=
  rev (take_while (fun c => negb (N.eqb c SLASH)) (rev path)).

(** [dir.rglob('*' + suffix)]: every path below [dir] whose name ends in
    [suffix].  pathlib yields nothing, and raises nothing, when [dir] is
    not a directory. *)
Definition rglob (dir suffix : str) : M (list str) :=
  fun w =>
    match dirs w !! dir with
    | Some below =>
        Ok (List.filter (fun path => endswith suffix (name path))
              (map (fun rel => dir ++ SLASH :: rel) below)) w
    | None => Ok [] w
    end.

(** [re.sub] inside the monad. *)
Definition re_sub (p : Sre.pattern) (repl text : str) : M str :=
  match Sre.re_sub p repl text with
  | Some out => ret out
  | None => raise re_error
  end.

(** Mapping of (provider, contentType) to use_api_key value *)
Definition API_KEY_MAPPING : gmap (str * str) str :=
  list_to_map [
    ((py "kie_ai", py "image_editing"), py "KIE_AI_API_KEY_IMAGE_EDITING");
    ((py "kie_ai", py "image_to_video"), py "KIE_AI_API_KEY_IMAGE_TO_VIDEO");
    ((py "kie_ai", py "prompt_to_image"), py "KIE_AI_API_KEY_PROMPT_TO_IMAGE");
    ((py "kie_ai", py "prompt_to_video"), py "KIE_AI_API_KEY_PROMPT_TO_VIDEO");
    ((py "kie_ai", py "prompt_to_audio"), py "KIE_AI_API_KEY_PROMPT_TO_AUDIO");
    ((py "runware", py "prompt_to_image"), py "RUNWARE_API_KEY_PROMPT_TO_IMAGE");
    ((py "runware", py "image_editing"), py "RUNWARE_API_KEY_IMAGE_EDITING");
    ((py "runware", py "image_to_video"), py "RUNWARE_API_KEY_IMAGE_TO_VIDEO")
  ].

(** Special models by recordId (check these first) *)
Definition SPECIAL_MODELS : gmap str str :=
  list_to_map [
    (* VEO3 *)
    (py "8aac94cb-5625-47f4-880c-4f0fd8bd83a1", py "KIE_AI_API_KEY_VEO3");
    (py "a5c2ec16-6294-4588-86b6-7b4182601cda", py "KIE_AI_API_KEY_VEO3");
    (py "6e8a863e-8630-4eef-bdbb-5b41f4c883f9", py "KIE_AI_API_KEY_VEO3");
    (py "f8e9c7a5-9d4b-6f2c-8a1e-5d7b3c9f4a6e", py "KIE_AI_API_KEY_VEO3");
    (py "e9c8b7a6-8d5c-4f3e-9a2f-6d8b5c9e4a7f", py "KIE_AI_API_KEY_VEO3");
    (* SORA2 *)
    (py "d7f8c5a3-9b2e-6f4d-8c9a-5e7b3a6d4f8c", py "KIE_AI_API_KEY_SORA2");
    (py "c6e5b4a3-5d2f-1c0e-6a9f-3d5b6c7e4a8f", py "KIE_AI_API_KEY_SORA2");
    (* Nano Banana *)
    (py "c7e9a5f3-8d4b-6f2c-9a1e-5d8b3c7f4a6e", py "KIE_AI_API_KEY_NANO_BANANA");
    (* Seedream V4 *)
    (py "d2ffb834-fc59-4c80-bf48-c2cc25281fdd", py "KIE_AI_API_KEY_SEEDREAM_V4");
    (py "a6c8e4f7-9d2b-5f3c-8a6e-7d4b9c5f3a8e", py "KIE_AI_API_KEY_SEEDREAM_V4")
  ].

(** The quote class of the patterns, and its complement. *)
Definition quote : N -> bool := Sre.one_of [DQUOTE; SQUOTE].
Definition not_quote : N -> bool := Sre.none_of [DQUOTE; SQUOTE].

(** The call the second substitution looks for, and what it puts in its
    place. *)
Definition MODEL_CONFIG_contentType : str := py "MODEL_CONFIG.contentType)".
Definition MODEL_CONFIG_use_api_key : str := py "MODEL_CONFIG.use_api_key)".

(** The pattern [MODEL_CONFIG\.contentType\)]. *)
Definition model_config_re : Sre.pattern := Sre.literals MODEL_CONFIG_contentType.

(** The f-string of the first substitution: backslash-1, backslash-n, two
    spaces, the field name, and the value between double quotes, then a
    comma. *)
Definition use_api_key_template (use_api_key : str) : str :=
  py "\1\n  use_api_key: " ++ DQUOTE :: use_api_key ++ [DQUOTE; 44%N].

(** The four file names [main] passes over. *)
Definition utility_files : list str :=
  [py "index.ts"; py "getKieApiKey.ts"; py "getRunwareApiKey.ts"; py "ModelFileGenerator.ts"].

(** The console lines. *)
Definition no_mapping_line (provider content_type : str) : str :=
  [32; 32; 9888; 65039; 32; 32]%N ++ py "No mapping for provider=" ++ provider
    ++ py ", contentType=" ++ content_type.

Definition updated_line (file_path : str) : str :=
  9989%N :: py " Updated: " ++ file_path.

Definition summary_title : str := NEWLINE :: 128202%N :: py " Summary:".

Definition summary_updated (updated_count : nat) : str :=
  py "   Updated: " ++ str_of_nat updated_count ++ py " files".

Definition summary_skipped (skipped_count : nat) : str :=
  py "   Skipped: " ++ str_of_nat skipped_count ++ py " files".

Section Program.

Variable db : ucd.

(** [\s] and [\w] on [str] patterns. *)
Definition category_space (c : N) : bool :=
  if N.ltb c 128 then ascii_isspace c else uni_isspace db c.

Definition category_word (c : N) : bool :=
  if N.ltb c 128 then ascii_isalnum c || N.eqb c 95 else uni_isalnum db c.

(** A field pattern: the field name and colon, [\s*], a quote, the
    captured value, a quote. *)
Definition field_re (field : str) (value : N -> bool) : Sre.pattern :=
  Sre.literals field ++
  [ Sre.MAX_REPEAT 0 category_space; Sre.IN quote;
    Sre.MARK 0; Sre.MAX_REPEAT 1 value; Sre.MARK 1;
    Sre.IN quote ].

Definition provider_re : Sre.pattern := field_re (py "provider:") category_word.
Definition content_type_re : Sre.pattern := field_re (py "contentType:") not_quote.
Definition record_id_re : Sre.pattern := field_re (py "recordId:") not_quote.

(** The pattern of the first substitution: the whole contentType
    declaration with its comma, as group 1. *)
Definition content_type_line_re : Sre.pattern :=
  Sre.MARK 0 :: Sre.literals (py "contentType:") ++
  [ Sre.MAX_REPEAT 0 category_space; Sre.IN quote;
    Sre.MAX_REPEAT 1 not_quote; Sre.IN quote; Sre.LITERAL 44%N;
    Sre.MARK 1 ].

(** The end of [process_model_file], reached once [use_api_key] is set
    by either branch: the two substitutions and the write. *)
Definition write_use_api_key (file_path content use_api_key : str) : M bool :=
  (* Add use_api_key after contentType line *)
  let* new_content :=
    re_sub content_type_line_re (use_api_key_template use_api_key) content in
  (* Also update function calls from contentType to use_api_key *)
  let* new_content :=
    re_sub model_config_re MODEL_CONFIG_use_api_key new_content in
  let* _ := write_text file_path new_content in
  ret true.

(** Add use_api_key field to a model file *)
Definition process_model_file (file_path : str) : M bool :=
  let* content := read_text file_path in
  (* Skip if already has use_api_key *)
  if contains (py "use_api_key:") content then ret false
  else
    (* Extract provider and contentType *)
    let provider_match := Sre.re_search provider_re content in
    let content_type_match := Sre.re_search content_type_re content in
    let record_id_match := Sre.re_search record_id_re content in
    match provider_match, content_type_match with
    | Some provider_match, Some content_type_match =>
        let provider := Sre.group provider_match 1 in
        let content_type := Sre.group content_type_match 1 in
        let record_id := option_map (fun m => Sre.group m 1) record_id_match in
        (* Check if it's a special model first *)
        match
          match record_id with
          | Some record_id =>
              if truthy record_id then SPECIAL_MODELS !! record_id else None
          | None => None
          end
        with
        | Some use_api_key => write_use_api_key file_path content use_api_key
        | None =>
            (* Otherwise use the mapping *)
            match API_KEY_MAPPING !! (provider, content_type) with
            | Some use_api_key => write_use_api_key file_path content use_api_key
            | None =>
                let* _ := print (no_mapping_line provider content_type) in
                ret false
            end
        end
    | _, _ => ret false
    end.

(** The body of the loop of [main], over the paths the walk yields, with
    the two counters. *)
Fixpoint for_each (paths : list str) (updated_count skipped_count : nat)
  : M (nat * nat) :=
  match paths with
  | [] => ret (updated_count, skipped_count)
  | file_path :: rest =>
      (* Skip utility files *)
      if str_in (name file_path) utility_files then
        for_each rest updated_count skipped_count
      else
        let* updated := process_model_file file_path in
        if updated then
          let* _ := print (updated_line file_path) in
          for_each rest (S updated_count) skipped_count
        else for_each rest updated_count (S skipped_count)
  end.

Definition main : M unit :=
  let models_dir := py "src/lib/models/locked" in
  let* paths := rglob models_dir (py ".ts") in
  let* (updated_count, skipped_count) := for_each paths 0 0 in
  let* _ := print (summary_title) in
  let* _ := print (summary_updated updated_count) in
  print (summary_skipped skipped_count).

End Program.


(** ** Declarations in a model file, read off the text

    These definitions do not go through the matcher; the facts below
    relate the two. *)

Section Declarations.

Variable db : ucd.

(** The declaration of [field] that the text [s] begins with, if any: the
    field name with its colon, white space, a quote, a non-empty value
    of [value] characters, a quote.  The result is the white space, the
    value and the text after the closing quote. *)
Definition decl_at (value : N -> bool) (field s : str) : option (str * str * str) :=
  if startswith field s then
    let s1 := skipn (length field) s in
    match drop_while (category_space db) s1 with
    | q :: s2 =>
        if quote q && Nat.leb 1 (length (take_while value s2)) then
          match drop_while value s2 with
          | q' :: s3 =>
              if quote q'
              then Some (take_while (category_space db) s1, take_while value s2, s3)
              else None
          | [] => None
          end
        else None
    | [] => None
    end
  else None.

(** Length of a declaration: name, white space, two quotes, value. *)
Definition decl_length (field ws v : str) : nat :=
  length field + length ws + 1 + length v + 1.

(** The values of all declarations of [field] in a text, a value being
    the text between the quotes. *)
Fixpoint field_values (field s : str) : list str :=
  match decl_at not_quote field s with
  | Some (_, v, _) => [v]
  | None => []
  end ++
  match s with
  | [] => []
  | _ :: s' => field_values field s'
  end.

(** A contentType declaration with the comma that follows it. *)
Definition content_type_line (a : str) : Prop :=
  exists ws q v q',
    a = py "contentType:" ++ ws ++ q :: v ++ [q'; 44%N] /\
    forallb (category_space db) ws = true /\
    quote q = true /\ v <> [] /\ forallb not_quote v = true /\ quote q' = true.

(** [inserted ins k s t]: the text [t] is [s] with [ins] put in right
    after each contentType declaration with its comma, [k] of them, read
    from left to right; nothing else differs. *)
Inductive inserted (ins : str) : nat -> str -> str -> Prop :=
| inserted_end : inserted ins 0 [] []
| inserted_here a s t k :
    content_type_line a -> inserted ins k s t ->
    inserted ins (S k) (a ++ s) (a ++ ins ++ t)
| inserted_skip c s t k :
    (forall a r, c :: s = a ++ r -> ~ content_type_line a) ->
    inserted ins k s t ->
    inserted ins k (c :: s) (c :: t).

End Declarations.

(** [rewritten old new k s t]: the text [t] is [s] with each occurrence
    of [old], [k] of them, read from left to right, replaced by [new];
    nothing else differs. *)
Inductive rewritten (old new : str) : nat -> str -> str -> Prop :=
| rewritten_end : rewritten old new 0 [] []
| rewritten_here s t k :
    rewritten old new k s t ->
    rewritten old new (S k) (old ++ s) (new ++ t)
| rewritten_skip c s t k :
    startswith old (c :: s) = false ->
    rewritten old new k s t ->
    rewritten old new k (c :: s) (c :: t).

(** A text without a backslash. *)
Definition plain (v : str) : bool := forallb (fun c => negb (N.eqb c BACKSLASH)) v.

(** The text the first substitution puts in after a declaration: a line
    feed, two spaces, the field name, the value between double quotes, a
    comma. *)
Definition use_api_key_line (use_api_key : str) : str :=
  NEWLINE :: py "  use_api_key: " ++ DQUOTE :: use_api_key ++ [DQUOTE; 44%N].

(** [annotated db v k content out]: [out] is [content] with
    [use_api_key_line v] put in after each of its [k] contentType
    declarations with a comma, and then each [MODEL_CONFIG.contentType)]
    rewritten to [MODEL_CONFIG.use_api_key)]; nothing else differs. *)
Definition annotated (db : ucd) (v : str) (k : nat) (content out : str) : Prop :=
  exists mid k',
    inserted db (use_api_key_line v) k content mid /\
    rewritten MODEL_CONFIG_contentType MODEL_CONFIG_use_api_key k' mid out.

(** ** What a run goes through *)

(** The paths the loop of [main] hands to [process_model_file]: those
    whose name is not one of the utility files. *)
Definition candidates (paths : list str) : list str :=
  List.filter (fun file_path => negb (str_in (name file_path) utility_files)) paths.

(** The paths [main] walks over in a world. *)
Definition ts_paths (w : world) : list str :=
  match dirs w !! py "src/lib/models/locked" with
  | Some below =>
      List.filter (fun path => endswith (py ".ts") (name path))
        (map (fun rel => py "src/lib/models/locked" ++ SLASH :: rel) below)
  | None => []
  end.

(** The world a computation ends in, whether it returns or raises. *)
Definition world_of {A} (r : result A) : world :=
  match r with
  | Ok _ w => w
  | Raise _ w => w
  end.

(** [resolved db content v]: the fields extracted from [content] resolve
    to [v], by the override of the recordId where there is one, by the
    mapping of provider and contentType otherwise. *)
Definition resolved (db : ucd) (content v : str) : Prop :=
  exists pm cm,
    Sre.re_search (provider_re db) content = Some pm /\
    Sre.re_search (content_type_re db) content = Some cm /\
    ((exists rm, Sre.re_search (record_id_re db) content = Some rm /\
                 SPECIAL_MODELS !! Sre.group rm 1 = Some v) \/
     ((forall rm, Sre.re_search (record_id_re db) content = Some rm ->
                  SPECIAL_MODELS !! Sre.group rm 1 = None) /\
      API_KEY_MAPPING !! (Sre.group pm 1, Sre.group cm 1) = Some v)).

(** The characters of the values of the tables: capitals, digits and the
    underscore. *)
Definition key_char (c : N) : bool :=
  in_range 48 57 c || in_range 65 90 c || N.eqb c 95.

(** A value of one of the two tables. *)
Definition table_value (v : str) : Prop :=
  (exists record_id, SPECIAL_MODELS !! record_id = Some v) \/
  (exists key, API_KEY_MAPPING !! key = Some v).

(** A non-empty value made of word characters only. *)
Definition word_value (db : ucd) (v : str) : bool :=
  truthy v && forallb (category_word db) v.

Definition CAPITAL_M : N := 77%N.

(** A text on which every call returns False without writing. *)
Definition quiet (db : ucd) (content : str) : Prop :=
  forall file_path (w : world),
    text_of w file_path = Some content ->
    exists w',
      process_model_file db file_path w = Ok false w' /\
      files w' = files w /\ dirs w' = dirs w /\
      exists lines, console w' = console w ++ lines.

(** Where a contentType is extracted, some contentType declaration is
    followed by a comma. *)
Definition comma_follows (db : ucd) (content : str) : Prop :=
  Sre.re_search (content_type_re db) content <> None ->
  exists a line b, content = a ++ line ++ b /\ content_type_line db line.

(** Two opcodes that do the same on the characters of a text. *)
Inductive same_op (s0 : str) : Sre.op -> Sre.op -> Prop :=
| same_LITERAL c : same_op s0 (Sre.LITERAL c) (Sre.LITERAL c)
| same_IN f g :
    (forall c, In c s0 -> f c = g c) -> same_op s0 (Sre.IN f) (Sre.IN g)
| same_MAX_REPEAT lo f g :
    (forall c, In c s0 -> f c = g c) ->
    same_op s0 (Sre.MAX_REPEAT lo f) (Sre.MAX_REPEAT lo g)
| same_MARK i : same_op s0 (Sre.MARK i) (Sre.MARK i).

(** ** The specification's wording, for comparison

    Three definitions that follow the words of the specification rather
    than the code. *)

(** [s.split(NEWLINE)] and its inverse. *)
Fixpoint split_lines (s : str) : list str :=
  match s with
  | [] => [[]]
  | c :: s' =>
      if N.eqb c NEWLINE then [] :: split_lines s'
      else
        match split_lines s' with
        | l :: ls => (c :: l) :: ls
        | [] => [[c]]
        end
  end.

Fixpoint join_lines (ls : list str) : str :=
  match ls with
  | [] => []
  | [l] => l
  | l :: ls' => l ++ NEWLINE :: join_lines ls'
  end.

(** After the specification (4.4, idempotence rule): the field name
    occurs as a field declaration, not in a comment or a string, that
    is, some line begins, after its indentation, with the name and its
    colon. *)
Definition spec_declares (field content : str) : bool :=
  existsb (fun l => startswith field (drop_while ascii_isspace l)) (split_lines content).

(** After the specification (4.4, insertion rule): right after the first
    line that declares contentType comes one new line, with the
    indentation of that line, the field name and the value as a quoted
    string. *)
Fixpoint spec_insert_after (v : str) (ls : list str) : list str :=
  match ls with
  | [] => []
  | l :: ls' =>
      if contains (py "contentType:") l
      then l :: (take_while ascii_isspace l ++ py "use_api_key: "
                   ++ DQUOTE :: v ++ [DQUOTE; 44%N]) :: ls'
      else l :: spec_insert_after v ls'
  end.

Definition spec_insert (v content : str) : str :=
  join_lines (spec_insert_after v (split_lines content)).

(** After claim C10: the value of a field of the file, that is, the text
    between the quotes on the first line that begins, after its
    indentation, with the field name and its colon. *)
Definition spec_field (field content : str) : option str :=
  match List.filter (fun l => startswith field (drop_while ascii_isspace l))
          (split_lines content) with
  | l :: _ =>
      match drop_while not_quote l with
      | _ :: after => Some (take_while not_quote after)
      | [] => None
      end
  | [] => None
  end.

(** ** Sample trees

    Closed examples run on ASCII texts, which never reach the Unicode
    tables; [ucd_ascii] stands in for them there. *)

Definition ucd_ascii : ucd :=
  {| uni_isalnum := fun _ => false; uni_isspace := fun _ => false |}.

(** A double-quoted literal, and a text from its lines. *)
Definition dq (s : string) : str := DQUOTE :: py s ++ [DQUOTE].
Arguments dq s%_string.

Definition field_line (indent field value : string) : str :=
  py indent ++ py field ++ py ": " ++ dq value ++ py ",".
Arguments field_line (indent field value)%_string.

Definition locked : str := py "src/lib/models/locked".

(** A tree with one file below the root. *)
Definition one_file (rel content : str) : world :=
  {| dirs := {[ locked := [rel] ]};
     files := {[ locked ++ SLASH :: rel := content ]};
     console := [] |}.

Definition Veo3_ts : str := locked ++ SLASH :: py "Veo3.ts".

(** An override model whose category has a mapping of its own. *)
Definition veo3_file : str :=
  join_lines [
    py "export const MODEL_CONFIG = {";
    field_line "  " "recordId" "8aac94cb-5625-47f4-880c-4f0fd8bd83a1";
    field_line "  " "provider" "kie_ai";
    field_line "  " "contentType" "prompt_to_video";
    py "};";
    py "getKieApiKey(MODEL_CONFIG.contentType);" ].

(** A model of a mapped category, without a recordId. *)
Definition image_editing_file : str :=
  join_lines [
    py "export const MODEL_CONFIG = {";
    field_line "  " "provider" "kie_ai";
    field_line "  " "contentType" "image_editing";
    py "};" ].

(** The same model, indented by four spaces. *)
Definition indented_file : str :=
  join_lines [
    py "export const MODEL_CONFIG = {";
    field_line "    " "provider" "kie_ai";
    field_line "    " "contentType" "image_editing";
    py "};" ].

(** A provider with no mapping. *)
Definition unmapped_file : str :=
  join_lines [
    py "export const MODEL_CONFIG = {";
    field_line "  " "provider" "openai";
    field_line "  " "contentType" "prompt_to_image";
    py "};" ].

(** An override model without a provider. *)
Definition no_provider_file : str :=
  join_lines [
    py "export const MODEL_CONFIG = {";
    field_line "  " "recordId" "8aac94cb-5625-47f4-880c-4f0fd8bd83a1";
    field_line "  " "contentType" "prompt_to_video";
    py "};" ].

(** An override model whose provider has a hyphen. *)
Definition hyphen_file : str :=
  join_lines [
    py "export const MODEL_CONFIG = {";
    field_line "  " "recordId" "8aac94cb-5625-47f4-880c-4f0fd8bd83a1";
    field_line "  " "provider" "kie-ai";
    field_line "  " "contentType" "prompt_to_video";
    py "};" ].

(** A mapped model with the field name in a comment only. *)
Definition commented_file : str :=
  join_lines [
    py "// use_api_key: to be added by the migration";
    py "export const MODEL_CONFIG = {";
    field_line "  " "provider" "kie_ai";
    field_line "  " "contentType" "image_editing";
    py "};" ].

(** A model that already has the field. *)
Definition annotated_file : str :=
  join_lines [
    py "export const MODEL_CONFIG = {";
    field_line "  " "provider" "kie_ai";
    field_line "  " "contentType" "image_editing";
    field_line "  " "use_api_key" "KIE_AI_API_KEY_IMAGE_EDITING";
    py "};" ].

(** A mapped model whose contentType is the last property, with no comma
    after it. *)
Definition no_comma_file : str :=
  py "export const MODEL_CONFIG = { provider: " ++ dq "kie_ai"
    ++ py ", contentType: " ++ dq "image_editing" ++ py " };".

(** An override model whose contentType is the last property, with no
    comma after it. *)
Definition no_comma_override_file : str :=
  py "export const MODEL_CONFIG = { recordId: "
    ++ dq "8aac94cb-5625-47f4-880c-4f0fd8bd83a1" ++ py ", provider: " ++ dq "kie_ai"
    ++ py ", contentType: " ++ dq "prompt_to_video" ++ py " };".

(** The mapped model with CR LF line ends. *)
Definition crlf_file : str :=
  py "export const MODEL_CONFIG = {" ++ [CR; NEWLINE]
    ++ field_line "  " "provider" "kie_ai" ++ [CR; NEWLINE]
    ++ field_line "  " "contentType" "image_editing" ++ [CR; NEWLINE]
    ++ py "};".

(** A file with two contentType declarations. *)
Definition two_declarations_file : str :=
  join_lines [
    py "export const MODEL_CONFIG = {";
    field_line "  " "provider" "kie_ai";
    field_line "  " "contentType" "image_editing";
    py "};";
    py "export const FALLBACK = {";
    field_line "  " "contentType" "image_to_video";
    py "};" ].

(** An override model whose provider has a hyphen, under a comment that
    names another provider. *)
Definition comment_provider_file : str :=
  join_lines [
    py "// old provider: " ++ dq "runware";
    py "export const MODEL_CONFIG = {";
    field_line "  " "recordId" "8aac94cb-5625-47f4-880c-4f0fd8bd83a1";
    field_line "  " "provider" "kie-ai";
    field_line "  " "contentType" "prompt_to_video";
    py "};" ].

(** A tree with models in two directories, a utility file and a file
    that is not TypeScript, each with the text of a model. *)
Definition sample_tree : world :=
  {| dirs := {[ locked :=
       [ py "prompt_to_video/Veo3.ts"; py "image_editing/Edit.ts"; py "index.ts";
         py "README.md"; py "Unmapped.ts" ] ]};
     files := list_to_map
       [ (locked ++ SLASH :: py "prompt_to_video/Veo3.ts", veo3_file);
         (locked ++ SLASH :: py "image_editing/Edit.ts", image_editing_file);
         (locked ++ SLASH :: py "index.ts", image_editing_file);
         (locked ++ SLASH :: py "README.md", image_editing_file);
         (locked ++ SLASH :: py "Unmapped.ts", unmapped_file) ];
     console := [] |}.

(** A tree in which a directory has a name that ends in .ts. *)
Definition tree_with_directory : world :=
  {| dirs := {[ locked := [ py "Edit.ts"; py "legacy.ts"; py "legacy.ts/Old.ts" ] ]};
     files := list_to_map
       [ (locked ++ SLASH :: py "Edit.ts", image_editing_file);
         (locked ++ SLASH :: py "legacy.ts/Old.ts", image_editing_file) ];
     console := [] |}.

Definition Edit_ts : str := locked ++ SLASH :: py "image_editing/Edit.ts".
Definition index_ts : str := locked ++ SLASH :: py "index.ts".
Definition legacy_ts : str := locked ++ SLASH :: py "legacy.ts".

(** Tables that answer yes everywhere, to set against [ucd_ascii]. *)
Definition ucd_all : ucd :=
  {| uni_isalnum := fun _ => true; uni_isspace := fun _ => true |}.

(** * Facts about the embedding *)

(** ** Strings *)

Lemma take_drop_while f (s : str) : take_while f s ++ drop_while f s = s.
Proof.
  induction s as [|c s IH]; simpl; [reflexivity|].
  destruct (f c); simpl; [now rewrite IH | reflexivity].
Qed.

Lemma take_while_all f (s : str) : forallb f (take_while f s) = true.
Proof.
  induction s as [|c s IH]; simpl; [reflexivity|].
  destruct (f c) eqn:E; simpl; [now rewrite E | reflexivity].
Qed.

Lemma drop_while_head f (s : str) c r : drop_while f s = c :: r -> f c = false.
Proof.
  induction s as [|x s IH]; simpl; [discriminate|].
  destruct (f x) eqn:E; [exact IH | intros [= -> _]; exact E].
Qed.

Lemma take_while_app f (a : str) c r :
  forallb f a = true -> f c = false -> take_while f (a ++ c :: r) = a.
Proof.
  induction a as [|x a IH]; simpl; intros Ha Hc.
  - now rewrite Hc.
  - apply andb_prop in Ha as [Hx Ha]. now rewrite Hx, IH.
Qed.

Lemma drop_while_app f (a : str) c r :
  forallb f a = true -> f c = false -> drop_while f (a ++ c :: r) = c :: r.
Proof.
  induction a as [|x a IH]; simpl; intros Ha Hc.
  - now rewrite Hc.
  - apply andb_prop in Ha as [Hx Ha]. now rewrite Hx, IH.
Qed.

Lemma startswith_app (w s : str) : startswith w (w ++ s) = true.
Proof.
  induction w as [|a w IH]; simpl; [reflexivity|].
  now rewrite N.eqb_refl, IH.
Qed.

Lemma startswith_true (w s : str) :
  startswith w s = true -> s = w ++ skipn (length w) s.
Proof.
  revert s; induction w as [|a w IH]; intros s; simpl; [reflexivity|].
  destruct s as [|b s]; [discriminate|].
  intros H; apply andb_prop in H as [Hab H].
  apply N.eqb_eq in Hab; subst b. simpl. f_equal. now apply IH.
Qed.

Lemma startswith_iff (w s : str) :
  startswith w s = true <-> exists r, s = w ++ r.
Proof.
  split.
  - intros H. eexists. now apply startswith_true.
  - intros [r ->]. apply startswith_app.
Qed.

Lemma contains_iff (w s : str) :
  contains w s = true <-> exists a b, s = a ++ w ++ b.
Proof.
  induction s as [|c s IH]; simpl.
  - rewrite orb_false_r, startswith_iff. split.
    + intros [r ->]. now exists [], r.
    + intros (a & b & H). destruct a; [now exists b|discriminate].
  - rewrite orb_true_iff, IH, startswith_iff. split.
    + intros [[r ->]|(a & b & ->)]; [now exists [], r | now exists (c :: a), b].
    + intros (a & b & H). destruct a as [|x a]; simpl in H.
      * left. now exists b.
      * right. injection H as _ ->. now exists a, b.
Qed.

(** ** The matcher *)

Module SreFacts.
Import Sre.

(** One step of the matcher, by the first opcode. *)
Lemma match_nil (s : str) pos ms : sre_match [] s pos ms = Some (pos, ms).
Proof. reflexivity. Qed.

Lemma match_LITERAL c (p : pattern) (s : str) pos ms :
  sre_match (LITERAL c :: p) s pos ms =
  match s with
  | x :: s' => if N.eqb x c then sre_match p s' (S pos) ms else None
  | [] => None
  end.
Proof. reflexivity. Qed.

Lemma match_IN set (p : pattern) (s : str) pos ms :
  sre_match (IN set :: p) s pos ms =
  match s with
  | x :: s' => if set x then sre_match p s' (S pos) ms else None
  | [] => None
  end.
Proof. reflexivity. Qed.

Lemma match_MARK i (p : pattern) (s : str) pos ms :
  sre_match (MARK i :: p) s pos ms = sre_match p s pos ((i, pos) :: ms).
Proof. reflexivity. Qed.

(** A literal run matches exactly where the text starts with it. *)
Lemma match_literals (w : str) (p : pattern) (s : str) pos ms :
  sre_match (literals w ++ p) s pos ms =
  if startswith w s
  then sre_match p (skipn (length w) s) (pos + length w) ms
  else None.
Proof.
  revert s pos; induction w as [|a w IH]; intros s pos; simpl.
  - now rewrite Nat.add_0_r.
  - destruct s as [|b s]; [reflexivity|].
    rewrite (N.eqb_sym a b). destruct (N.eqb b a); simpl; [|reflexivity].
    fold (literals w). rewrite IH. now replace (S pos + length w) with (pos + S (length w)) by lia.
Qed.

Lemma refuses_IN (q set : N -> bool) (p : pattern) :
  (forall x, set x = true -> q x = false) -> refuses (IN q :: p) set.
Proof. intros H x s pos ms Hx. simpl. now rewrite (H x Hx). Qed.

Lemma refuses_MARK i (p : pattern) set : refuses p set -> refuses (MARK i :: p) set.
Proof. intros H x s pos ms Hx. simpl. now apply H. Qed.

(** When what follows a greedy repetition refuses its class, giving
    characters back never helps: the repetition takes the longest run
    and the rest must match right after it. *)
Lemma match_repeat (lo : nat) (set : N -> bool) (p : pattern) (s : str) pos ms :
  refuses p set ->
  sre_match (MAX_REPEAT lo set :: p) s pos ms =
  if Nat.leb lo (length (take_while set s))
  then sre_match p (drop_while set s) (pos + length (take_while set s)) ms
  else None.
Proof.
  intros Href. simpl.
  enough (G : forall s pos count,
    (fix repeat (s : str) (pos count : nat) {struct s} : option (nat * marks) :=
       let tail := if Nat.leb lo count then sre_match p s pos ms else None in
       match s with
       | x :: s' =>
           if set x then
             match repeat s' (S pos) (S count) with
             | Some r => Some r
             | None => tail
             end
           else tail
       | [] => tail
       end) s pos count =
    if Nat.leb lo (count + length (take_while set s))
    then sre_match p (drop_while set s) (pos + length (take_while set s)) ms
    else None) by apply (G s pos 0).
  clear s pos. induction s as [|x s IH]; intros pos count; simpl.
  - now rewrite !Nat.add_0_r.
  - destruct (set x) eqn:Hx; simpl.
    + rewrite IH. replace (S count + length (take_while set s))
        with (count + S (length (take_while set s))) by lia.
      replace (S pos + length (take_while set s))
        with (pos + S (length (take_while set s))) by lia.
      destruct (Nat.leb lo (count + S (length (take_while set s)))) eqn:Hlo.
      * destruct (sre_match p (drop_while set s) _ ms) as [r|]; [reflexivity|].
        rewrite (Href x s pos ms Hx). now destruct (Nat.leb lo count).
      * apply Nat.leb_gt in Hlo.
        destruct (Nat.leb lo count) eqn:Hc; [apply Nat.leb_le in Hc; lia | reflexivity].
    + now rewrite !Nat.add_0_r.
Qed.

(** [re.search] returns a match of the pattern at some position of the
    text, and no earlier position has one. *)
Lemma search_from_Some (p : pattern) (s : str) start m :
  search_from p s start = Some m ->
  exists pre,
    s = pre ++ m_text m /\
    sre_match p (m_text m) 0 [] = Some (m_length m, m_marks m) /\
    forall a b, pre = a ++ b -> b <> [] -> sre_match p (b ++ m_text m) 0 [] = None.
Proof.
  revert start; induction s as [|c s IH]; intros start; simpl.
  - destruct (sre_match p [] 0 []) as [[n ms]|] eqn:E; [|discriminate].
    intros [= <-]. exists []. simpl. repeat split; [assumption|].
    intros a b Hab Hb. now destruct a, b.
  - destruct (sre_match p (c :: s) 0 []) as [[n ms]|] eqn:E.
    + intros [= <-]. exists []. simpl. repeat split; [assumption|].
      intros a b Hab Hb. now destruct a, b.
    + intros H. destruct (IH _ H) as (pre & Hs & Hm & Hnone).
      exists (c :: pre). repeat split; [simpl; now f_equal | assumption |].
      intros a b Hab Hb. destruct a as [|x a]; simpl in Hab.
      * subst b. simpl. now rewrite <- Hs.
      * injection Hab as _ Hab. now apply (Hnone a b).
Qed.

Lemma search_from_None (p : pattern) (s : str) start :
  search_from p s start = None ->
  forall a b, s = a ++ b -> sre_match p b 0 [] = None.
Proof.
  revert start; induction s as [|c s IH]; intros start; simpl.
  - destruct (sre_match p [] 0 []) as [[n ms]|] eqn:E; [discriminate|].
    intros _ a b Hab. now destruct a, b.
  - destruct (sre_match p (c :: s) 0 []) as [[n ms]|] eqn:E; [discriminate|].
    intros H a b Hab. destruct a as [|x a]; simpl in Hab.
    + now subst b.
    + injection Hab as _ Hab. now apply (IH _ H a b).
Qed.

Lemma search_from_is_Some (p : pattern) (a b : str) start r :
  sre_match p b 0 [] = Some r -> exists m, search_from p (a ++ b) start = Some m.
Proof.
  intros Hb. destruct (search_from p (a ++ b) start) as [m|] eqn:E; [now exists m|].
  rewrite (search_from_None _ _ _ E a b eq_refl) in Hb. discriminate.
Qed.

(** The loop of [re.sub], one step at a time. *)
Lemma sub_from_skip (p : pattern) t (s : str) k :
  k <= length s -> sub_from p t s k = sub_from p t (skipn k s) 0.
Proof.
  revert k; induction s as [|c s IH]; intros k Hk; simpl in Hk.
  - now replace k with 0 by lia.
  - destruct k as [|k]; [reflexivity|]. simpl. apply IH. lia.
Qed.

Lemma sub_from_hit (p : pattern) t c (s : str) n ms :
  sre_match p (c :: s) 0 [] = Some (S n, ms) -> n <= length s ->
  sub_from p t (c :: s) 0 = expand t (c :: s) ms ++ sub_from p t (skipn (S n) (c :: s)) 0.
Proof.
  intros Hm Hn. simpl. rewrite Hm. f_equal. now apply sub_from_skip.
Qed.

Lemma sub_from_miss (p : pattern) t c (s : str) :
  sre_match p (c :: s) 0 [] = None ->
  sub_from p t (c :: s) 0 = c :: sub_from p t s 0.
Proof. intros Hm. simpl. now rewrite Hm. Qed.

Lemma sub_from_end (p : pattern) t :
  sre_match p [] 0 [] = None -> sub_from p t [] 0 = [].
Proof. intros Hm. simpl. now rewrite Hm. Qed.

(** Templates: text without a backslash stands for itself. *)
Lemma parse_template_text n (x t : str) :
  forallb (fun c => negb (N.eqb c BACKSLASH)) x = true ->
  parse_template n (x ++ t) = option_map (app (map Text x)) (parse_template n t).
Proof.
  induction x as [|c x IH]; simpl; intros Hx.
  - now destruct (parse_template n t).
  - apply andb_prop in Hx as [Hc Hx]. apply negb_true_iff in Hc. rewrite Hc.
    rewrite (IH Hx). now destruct (parse_template n t).
Qed.

Lemma expand_text (x : str) t (s : str) ms :
  expand (map Text x ++ t) s ms = x ++ expand t s ms.
Proof. induction x as [|c x IH]; simpl; [reflexivity | now rewrite IH]. Qed.

End SreFacts.

(** ** Field declarations and the patterns *)

Section FieldFacts.

Variable db : ucd.

Lemma quote_iff x : quote x = true <-> x = DQUOTE \/ x = SQUOTE.
Proof.
  unfold quote, Sre.one_of; simpl.
  rewrite orb_false_r, orb_true_iff, !N.eqb_eq. reflexivity.
Qed.

Lemma not_quote_quote x : not_quote x = true -> quote x = false.
Proof. unfold not_quote, Sre.none_of, quote. now destruct (Sre.one_of _ x). Qed.

Lemma space_not_quote x : category_space db x = true -> quote x = false.
Proof.
  intros H. destruct (quote x) eqn:Q; [|reflexivity].
  apply quote_iff in Q as [-> | ->]; discriminate H.
Qed.

Lemma word_not_quote x : category_word db x = true -> quote x = false.
Proof.
  intros H. destruct (quote x) eqn:Q; [|reflexivity].
  apply quote_iff in Q as [-> | ->]; discriminate H.
Qed.

Lemma quote_not_space x : quote x = true -> category_space db x = false.
Proof.
  intros Q. destruct (category_space db x) eqn:H; [|reflexivity].
  apply space_not_quote in H. congruence.
Qed.

(** The matcher on a field pattern finds exactly the declaration the
    text begins with. *)
Lemma match_field (value : N -> bool) (field s : str) :
  (forall x, value x = true -> quote x = false) ->
  Sre.sre_match (field_re db field value) s 0 [] =
  match decl_at db value field s with
  | Some (ws, v, _) =>
      Some (decl_length field ws v,
            [(1, length field + length ws + 1 + length v);
             (0, length field + length ws + 1)])
  | None => None
  end.
Proof.
  intros Hv. unfold field_re, decl_at.
  rewrite SreFacts.match_literals.
  destruct (startswith field s); [|reflexivity].
  rewrite SreFacts.match_repeat by (apply SreFacts.refuses_IN, space_not_quote).
  simpl (Nat.leb 0 _).
  destruct (drop_while (category_space db) (skipn (length field) s)) as [|q s2];
    [reflexivity|].
  rewrite SreFacts.match_IN. destruct (quote q); [|reflexivity].
  rewrite SreFacts.match_MARK, SreFacts.match_repeat
    by (apply SreFacts.refuses_MARK, SreFacts.refuses_IN, Hv).
  cbn [andb].
  destruct (Nat.leb 1 (length (take_while value s2))); [|reflexivity].
  rewrite SreFacts.match_MARK, SreFacts.match_IN.
  destruct (drop_while value s2) as [|q' s3]; [reflexivity|].
  destruct (quote q'); [|reflexivity].
  rewrite SreFacts.match_nil. unfold decl_length.
  repeat f_equal; lia.
Qed.

(** What a declaration at the head of a text looks like. *)
Lemma decl_at_Some (value : N -> bool) (field s ws v r : str) :
  decl_at db value field s = Some (ws, v, r) ->
  exists q q',
    s = field ++ ws ++ q :: v ++ q' :: r /\
    forallb (category_space db) ws = true /\ quote q = true /\
    v <> [] /\ forallb value v = true /\ quote q' = true /\ value q' = false.
Proof.
  unfold decl_at. destruct (startswith field s) eqn:Hf; [|discriminate].
  apply startswith_true in Hf.
  pose proof (take_drop_while (category_space db) (skipn (length field) s)) as Hws.
  destruct (drop_while (category_space db) (skipn (length field) s)) as [|q s2];
    [discriminate|].
  destruct (quote q) eqn:Hq; [|discriminate]. cbn [andb].
  destruct (Nat.leb 1 (length (take_while value s2))) eqn:Hlen; [|discriminate].
  pose proof (take_drop_while value s2) as Hval.
  destruct (drop_while value s2) as [|q' s3] eqn:Hd; [discriminate|].
  destruct (quote q') eqn:Hq'; [|discriminate].
  intros [= <- <- <-]. exists q, q'. repeat split.
  - rewrite Hf at 1. now rewrite <- Hws, <- Hval at 1.
  - apply take_while_all.
  - assumption.
  - apply Nat.leb_le in Hlen. intros E. rewrite E in Hlen. simpl in Hlen. lia.
  - apply take_while_all.
  - assumption.
  - eapply drop_while_head; eassumption.
Qed.

(** Conversely, a text of that shape begins with that declaration. *)
Lemma decl_at_intro (value : N -> bool) (field ws v r : str) q q' :
  forallb (category_space db) ws = true -> quote q = true ->
  v <> [] -> forallb value v = true -> quote q' = true -> value q' = false ->
  decl_at db value field (field ++ ws ++ q :: v ++ q' :: r) = Some (ws, v, r).
Proof.
  intros Hws Hq Hne Hv Hq' Hvq'. unfold decl_at.
  rewrite startswith_app, skipn_app, Nat.sub_diag, skipn_all, skipn_O. cbn [app].
  rewrite (drop_while_app (category_space db)) by auto using quote_not_space.
  cbv beta iota.
  rewrite (take_while_app (category_space db)) by auto using quote_not_space.
  rewrite Hq, (take_while_app value), (drop_while_app value) by assumption.
  rewrite Hq'. destruct v; [congruence|reflexivity].
Qed.


(** The group of a field match is the value between the quotes. *)
Lemma between_decl (field ws v rest : str) q :
  Sre.between (field ++ ws ++ q :: v ++ rest)
    [(1, length field + length ws + 1 + length v);
     (0, length field + length ws + 1)] 0 1 = v.
Proof.
  unfold Sre.between, Sre.mark_get. simpl.
  replace (length field + length ws + 1 + length v - (length field + length ws + 1))
    with (length v) by lia.
  replace (field ++ ws ++ q :: v ++ rest) with ((field ++ ws ++ [q]) ++ v ++ rest)
    by now rewrite <- !app_assoc.
  rewrite drop_app_length' by (rewrite !length_app; simpl; lia).
  apply take_app_length.
Qed.

Lemma search_field (value : N -> bool) (field content : str) m :
  (forall x, value x = true -> quote x = false) ->
  Sre.re_search (field_re db field value) content = Some m ->
  exists pre ws r,
    content = pre ++ Sre.m_text m /\
    decl_at db value field (Sre.m_text m) = Some (ws, Sre.group m 1, r).
Proof.
  intros Hv Hs. apply SreFacts.search_from_Some in Hs as (pre & Hc & Hm & _).
  rewrite match_field in Hm by assumption.
  destruct (decl_at db value field (Sre.m_text m)) as [[[ws v] r]|] eqn:Hd;
    [|discriminate].
  injection Hm as _ Hms. exists pre, ws, r. split; [assumption|].
  unfold Sre.group. rewrite <- Hms.
  destruct (decl_at_Some _ _ _ _ _ _ Hd) as (q & q' & Hs & _).
  rewrite Hs at 1. change (2 * 1 - 2) with 0. change (2 * 1 - 1) with 1.
  now rewrite between_decl.
Qed.

(** A value of word characters that a quote ends is also the text up to
    the next quote. *)
Lemma decl_at_weaken (value : N -> bool) (field s ws v r : str) :
  (forall x, value x = true -> quote x = false) ->
  decl_at db value field s = Some (ws, v, r) ->
  decl_at db not_quote field s = Some (ws, v, r).
Proof.
  intros Hv Hd. destruct (decl_at_Some _ _ _ _ _ _ Hd)
    as (q & q' & -> & Hws & Hq & Hne & Hval & Hq' & _).
  apply decl_at_intro; try assumption.
  - apply forallb_forall. intros x Hx.
    rewrite forallb_forall in Hval. specialize (Hval x Hx).
    unfold not_quote, Sre.none_of. fold quote. now rewrite (Hv x Hval).
  - unfold not_quote, Sre.none_of. fold quote. now rewrite Hq'.
Qed.

Lemma field_values_suffix (field pre s : str) v :
  In v (field_values db field s) -> In v (field_values db field (pre ++ s)).
Proof.
  induction pre as [|c pre IH]; [trivial|]. intros H. simpl. apply in_or_app. right.
  now apply IH.
Qed.

Lemma field_values_head (field s ws v r : str) :
  decl_at db not_quote field s = Some (ws, v, r) -> In v (field_values db field s).
Proof.
  intros H. destruct s; simpl; rewrite H; simpl; now left.
Qed.

(** ** The two substitutions *)

(** The pattern of the first substitution matches exactly a contentType
    declaration followed by a comma, and group 1 is the whole match. *)
Lemma match_content_type_line (s : str) :
  Sre.sre_match (content_type_line_re db) s 0 [] =
  match decl_at db not_quote (py "contentType:") s with
  | Some (ws, v, c :: _) =>
      if N.eqb c 44
      then Some (S (decl_length (py "contentType:") ws v),
                 [(1, S (decl_length (py "contentType:") ws v)); (0, 0)])
      else None
  | _ => None
  end.
Proof.
  unfold content_type_line_re, decl_at.
  rewrite SreFacts.match_MARK, SreFacts.match_literals.
  destruct (startswith (py "contentType:") s); [|reflexivity].
  rewrite SreFacts.match_repeat by (apply SreFacts.refuses_IN, space_not_quote).
  simpl (Nat.leb 0 _).
  destruct (drop_while (category_space db) _) as [|q s2]; [reflexivity|].
  rewrite SreFacts.match_IN. destruct (quote q); [|reflexivity].
  rewrite SreFacts.match_repeat by (apply SreFacts.refuses_IN, not_quote_quote).
  cbn [andb].
  destruct (Nat.leb 1 (length (take_while not_quote s2))); [|reflexivity].
  rewrite SreFacts.match_IN.
  destruct (drop_while not_quote s2) as [|q' s3]; [reflexivity|].
  destruct (quote q'); [|reflexivity].
  rewrite SreFacts.match_LITERAL. destruct s3 as [|c s4]; [reflexivity|].
  destruct (N.eqb c 44); [|reflexivity].
  rewrite SreFacts.match_MARK, SreFacts.match_nil. unfold decl_length.
  repeat f_equal; lia.
Qed.

Lemma content_type_line_length (a : str) :
  content_type_line db a -> exists n, length a = S n.
Proof.
  intros (ws & q & v & q' & -> & _). simpl. eauto.
Qed.

Lemma match_content_type_line_Some (s : str) n ms :
  Sre.sre_match (content_type_line_re db) s 0 [] = Some (n, ms) ->
  exists a r,
    s = a ++ r /\ content_type_line db a /\ n = length a /\
    Sre.between s ms 0 1 = a.
Proof.
  rewrite match_content_type_line.
  destruct (decl_at db not_quote (py "contentType:") s) as [[[ws v] r]|] eqn:Hd;
    [|discriminate].
  destruct r as [|c r]; [discriminate|].
  destruct (N.eqb c 44) eqn:Hc; [|discriminate]. apply N.eqb_eq in Hc; subst c.
  intros [= <- <-].
  destruct (decl_at_Some _ _ _ _ _ _ Hd) as (q & q' & Hs & Hws & Hq & Hne & Hv & Hq' & _).
  exists (py "contentType:" ++ ws ++ q :: v ++ [q'; 44%N]), r.
  assert (Hs' : s = (py "contentType:" ++ ws ++ q :: v ++ [q'; 44%N]) ++ r).
  { rewrite Hs. rewrite <- !app_assoc. simpl. now rewrite <- !app_assoc. }
  assert (Hlen : S (decl_length (py "contentType:") ws v) =
                 length (py "contentType:" ++ ws ++ q :: v ++ [q'; 44%N])).
  { unfold decl_length. rewrite !length_app. simpl. rewrite !length_app. simpl. lia. }
  repeat split; try assumption.
  - now exists ws, q, v, q'.
  - unfold Sre.between, Sre.mark_get. cbn [find fst snd Nat.eqb option_map].
    rewrite Nat.sub_0_r, skipn_O, Hlen, Hs' at 1. apply take_app_length.
Qed.

Lemma match_content_type_line_intro (a r : str) :
  content_type_line db a ->
  exists ms, Sre.sre_match (content_type_line_re db) (a ++ r) 0 [] = Some (length a, ms).
Proof.
  intros (ws & q & v & q' & -> & Hws & Hq & Hne & Hv & Hq').
  rewrite match_content_type_line.
  replace ((py "contentType:" ++ ws ++ q :: v ++ [q'; 44%N]) ++ r)
    with (py "contentType:" ++ ws ++ q :: v ++ q' :: 44%N :: r)
    by (rewrite <- !app_assoc; simpl; now rewrite <- !app_assoc).
  rewrite decl_at_intro; try assumption.
  - rewrite N.eqb_refl. eexists. do 2 f_equal.
    unfold decl_length. rewrite !length_app. simpl. rewrite !length_app. simpl. lia.
  - unfold not_quote, Sre.none_of. fold quote. now rewrite Hq'.
Qed.

Lemma match_content_type_line_None (s : str) :
  Sre.sre_match (content_type_line_re db) s 0 [] = None ->
  forall a r, s = a ++ r -> ~ content_type_line db a.
Proof.
  intros Hm a r -> Ha.
  destruct (match_content_type_line_intro a r Ha) as [ms H]. congruence.
Qed.

(** The first template, parsed: group 1, then the new line. *)
Lemma parse_use_api_key_template (v : str) :
  forallb (fun c => negb (N.eqb c BACKSLASH)) v = true ->
  Sre.parse_template (Sre.groups (content_type_line_re db)) (use_api_key_template v) =
  Some (Sre.Group 1 :: map Sre.Text (use_api_key_line v)).
Proof.
  intros Hv. unfold use_api_key_template, use_api_key_line.
  change (py "\1\n  use_api_key: " ++ DQUOTE :: v ++ [DQUOTE; 44%N])
    with (BACKSLASH :: 49%N :: BACKSLASH :: 110%N ::
          (py "  use_api_key: " ++ [DQUOTE]) ++ v ++ [DQUOTE; 44%N]).
  change (Sre.groups (content_type_line_re db)) with 1.
  cbn [Sre.parse_template N.eqb BACKSLASH Pos.eqb Sre.digit_of Sre.is_digit N.leb
       N.compare Pos.compare Pos.compare_cont andb N.to_nat Pos.to_nat Pos.iter_op
       Nat.add Nat.sub Nat.leb option_map].
  rewrite SreFacts.parse_template_text by reflexivity.
  rewrite SreFacts.parse_template_text by assumption.
  change [DQUOTE; 44%N] with ([DQUOTE; 44%N] ++ []).
  rewrite SreFacts.parse_template_text by reflexivity.
  simpl Sre.parse_template. cbn [option_map].
  rewrite !app_nil_r. do 2 f_equal.
  change (NEWLINE :: py "  use_api_key: " ++ DQUOTE :: v ++ [DQUOTE; 44%N])
    with ((NEWLINE :: py "  use_api_key: " ++ [DQUOTE]) ++ v ++ [DQUOTE; 44%N]).
  now rewrite !map_app.
Qed.

(** The first substitution puts the new line in after every declaration
    with its comma, and changes nothing else. *)
Lemma sub_content_type_line (v s : str) :
  exists k,
    inserted db (use_api_key_line v) k s
      (Sre.sub_from (content_type_line_re db)
         (Sre.Group 1 :: map Sre.Text (use_api_key_line v)) s 0).
Proof.
  remember (length s) as n eqn:Hn. revert s Hn.
  induction n as [n IH] using lt_wf_ind. intros s Hn.
  destruct s as [|c s].
  - exists 0. rewrite SreFacts.sub_from_end; [constructor|].
    now rewrite match_content_type_line.
  - destruct (Sre.sre_match (content_type_line_re db) (c :: s) 0 []) as [[m ms]|] eqn:Hm.
    + destruct (match_content_type_line_Some _ _ _ Hm) as (a & r & Hs & Ha & -> & Hg).
      destruct (content_type_line_length a Ha) as [k Hk].
      rewrite Hk in Hm.
      assert (Hlen : length (c :: s) = length a + length r) by (rewrite Hs; apply length_app).
      rewrite (SreFacts.sub_from_hit _ _ _ _ _ _ Hm) by (simpl in Hlen; lia).
      cbn [Sre.expand]. change (2 * 1 - 2) with 0. change (2 * 1 - 1) with 1.
      rewrite Hg. rewrite <- (app_nil_r (map Sre.Text _)), SreFacts.expand_text.
      cbn [Sre.expand]. rewrite app_nil_r.
      rewrite Hs, <- Hk, drop_app_length, <- app_assoc, !app_nil_r.
      destruct (IH (length r)) with (s := r) as [k' Hk']; [lia | reflexivity |].
      exists (S k'). now apply inserted_here.
    + rewrite (SreFacts.sub_from_miss _ _ _ _ Hm).
      destruct (IH (length s)) with (s := s) as [k' Hk']; [simpl in Hn; lia | reflexivity |].
      exists k'. constructor; [|assumption].
      now apply match_content_type_line_None.
Qed.

End FieldFacts.

(** ** The second substitution and the two relations *)

Lemma match_literals_only (w s : str) :
  Sre.sre_match (Sre.literals w) s 0 [] =
  if startswith w s then Some (length w, []) else None.
Proof.
  rewrite <- (app_nil_r (Sre.literals w)), SreFacts.match_literals.
  now destruct (startswith w s).
Qed.

(** A substitution of a literal pattern by a literal text rewrites every
    occurrence, left to right, and changes nothing else. *)
Lemma sub_literals (old new s : str) :
  old <> [] ->
  exists k,
    rewritten old new k s (Sre.sub_from (Sre.literals old) (map Sre.Text new) s 0).
Proof.
  intros Hold. remember (length s) as n eqn:Hn. revert s Hn.
  induction n as [n IH] using lt_wf_ind. intros s Hn.
  destruct s as [|c s].
  - exists 0. rewrite SreFacts.sub_from_end; [constructor|].
    rewrite match_literals_only. now destruct old.
  - destruct (startswith old (c :: s)) eqn:Hst.
    + pose proof (startswith_true _ _ Hst) as Hs.
      destruct old as [|o old']; [congruence|].
      assert (Hlen : length (o :: old') <= length (c :: s)).
      { rewrite Hs, length_app. lia. }
      rewrite (SreFacts.sub_from_hit _ _ _ _ (length old') [])
        by (rewrite ?match_literals_only, ?Hst; simpl in *; trivial; lia).
      rewrite <- (app_nil_r (map Sre.Text new)), SreFacts.expand_text.
      cbn [Sre.expand]. rewrite !app_nil_r.
      change (S (length old')) with (length (o :: old')).
      destruct (IH (length (skipn (length (o :: old')) (c :: s))))
        with (s := skipn (length (o :: old')) (c :: s)) as [k Hk];
        [rewrite length_skipn; simpl in *; lia | reflexivity |].
      exists (S k). rewrite Hs at 1. now apply rewritten_here.
    + rewrite SreFacts.sub_from_miss by now rewrite match_literals_only, Hst.
      destruct (IH (length s)) with (s := s) as [k Hk];
        [simpl in Hn; lia | reflexivity |].
      exists k. now apply rewritten_skip.
Qed.

(** Where the old text does not occur, nothing is rewritten. *)
Lemma rewritten_none (old new s t : str) k :
  contains old s = false -> rewritten old new k s t -> t = s /\ k = 0.
Proof.
  intros Hc Hr. induction Hr as [|s t k Hr IH|c s t k Hst Hr IH].
  - now split.
  - exfalso. assert (H : contains old (old ++ s) = true)
      by (apply contains_iff; now exists [], s).
    congruence.
  - simpl in Hc. apply orb_false_elim in Hc as [_ Hc].
    destruct (IH Hc) as [-> ->]. now split.
Qed.

Section InsertedFacts.

Variable db : ucd.

(** No insertion means no declaration with its comma anywhere. *)
Lemma inserted_0 (ins s t : str) k :
  inserted db ins k s t -> k = 0 ->
  t = s /\ forall a line b, s = a ++ line ++ b -> ~ content_type_line db line.
Proof.
  intros Hi. induction Hi as [|a s t k Ha Hi IH|c s t k Hno Hi IH]; intros Hk.
  - split; [reflexivity|]. intros a line b Hs Hl.
    destruct (content_type_line_length db line Hl) as [n Hn].
    apply (f_equal (@length N)) in Hs. rewrite !length_app in Hs. simpl in Hs. lia.
  - discriminate.
  - destruct (IH Hk) as [-> Hnone]. split; [reflexivity|].
    intros a line b Hs Hl. destruct a as [|x a]; simpl in Hs.
    + exact (Hno line b Hs Hl).
    + injection Hs as _ Hs. exact (Hnone a line b Hs Hl).
Qed.

Lemma inserted_some (ins s t : str) k a line b :
  inserted db ins k s t -> s = a ++ line ++ b -> content_type_line db line -> 1 <= k.
Proof.
  intros Hi Hs Hl. destruct k; [|lia].
  destruct (inserted_0 _ _ _ _ Hi eq_refl) as [_ Hno]. now destruct (Hno a line b Hs).
Qed.

End InsertedFacts.

(** The relations are functional: the text read fixes the text written. *)
Lemma rewritten_functional (old new s t t' : str) k k' :
  old <> [] ->
  rewritten old new k s t -> rewritten old new k' s t' -> k = k' /\ t = t'.
Proof.
  intros Hold H. revert k' t'.
  induction H as [|s t k H IH|c s t k Hst H IH]; intros k' t' H'.
  - inversion H'; subst; [now split|].
    destruct old; [congruence|discriminate].
  - remember (old ++ s) as x eqn:E in H'.
    destruct H' as [|s0 t0 k0 H0|c0 s0 t0 k0 Hst0 H0].
    + destruct old; [congruence|discriminate].
    + apply app_inv_head in E as ->. destruct (IH _ _ H0) as [-> ->]. now split.
    + rewrite E, startswith_app in Hst0. discriminate.
  - remember (c :: s) as x eqn:E in H'.
    destruct H' as [|s0 t0 k0 H0|c0 s0 t0 k0 Hst0 H0].
    + discriminate.
    + rewrite <- E, startswith_app in Hst. discriminate.
    + injection E as -> ->. destruct (IH _ _ H0) as [-> ->]. now split.
Qed.

Section Functional.

Variable db : ucd.

Lemma content_type_line_unique (a a' r r' : str) :
  content_type_line db a -> content_type_line db a' ->
  a ++ r = a' ++ r' -> a = a' /\ r = r'.
Proof.
  intros Ha Ha' E.
  destruct (match_content_type_line_intro db a r Ha) as [ms H].
  destruct (match_content_type_line_intro db a' r' Ha') as [ms' H'].
  rewrite E, H' in H. injection H as Hlen _.
  now apply app_inj_1.
Qed.

Lemma inserted_functional (ins s t t' : str) k k' :
  inserted db ins k s t -> inserted db ins k' s t' -> k = k' /\ t = t'.
Proof.
  intros H. revert k' t'.
  induction H as [|a s t k Ha H IH|c s t k Hno H IH]; intros k' t' H'.
  - inversion H' as [|a0 s0 t0 k0 Ha0 H0|]; subst; [now split|].
    destruct (content_type_line_length db a0 Ha0) as [n Hn].
    destruct a0; discriminate.
  - remember (a ++ s) as x eqn:E in H'.
    destruct H' as [|a0 s0 t0 k0 Ha0 H0|c0 s0 t0 k0 Hno0 H0].
    + destruct (content_type_line_length db a Ha) as [n Hn]. destruct a; discriminate.
    + destruct (content_type_line_unique _ _ _ _ Ha0 Ha E) as [-> ->].
      destruct (IH _ _ H0) as [-> ->]. now split.
    + now destruct (Hno0 a s E).
  - remember (c :: s) as x eqn:E in H'.
    destruct H' as [|a0 s0 t0 k0 Ha0 H0|c0 s0 t0 k0 Hno0 H0].
    + discriminate.
    + now destruct (Hno a0 s0 (eq_sym E)).
    + injection E as -> ->. destruct (IH _ _ H0) as [-> ->]. now split.
Qed.

Lemma annotated_functional (v content out out' : str) k k' :
  annotated db v k content out -> annotated db v k' content out' ->
  k = k' /\ out = out'.
Proof.
  intros (mid & j & Hi & Hr) (mid' & j' & Hi' & Hr').
  destruct (inserted_functional _ _ _ _ _ _ Hi Hi') as [-> ->].
  assert (Hold : MODEL_CONFIG_contentType <> []) by discriminate.
  destruct (rewritten_functional _ _ _ _ _ _ _ Hold Hr Hr') as [_ ->].
  now split.
Qed.

End Functional.

(** ** The tables *)

Lemma SPECIAL_MODELS_plain (record_id v : str) :
  SPECIAL_MODELS !! record_id = Some v -> plain v = true.
Proof.
  intros H. apply elem_of_list_to_map_2 in H.
  repeat (apply elem_of_cons in H as [H|H]; [injection H as -> ->; reflexivity|]).
  now apply elem_of_nil in H.
Qed.

Lemma API_KEY_MAPPING_plain (key : str * str) (v : str) :
  API_KEY_MAPPING !! key = Some v -> plain v = true.
Proof.
  intros H. apply elem_of_list_to_map_2 in H.
  repeat (apply elem_of_cons in H as [H|H]; [injection H as -> ->; reflexivity|]).
  now apply elem_of_nil in H.
Qed.

Lemma SPECIAL_MODELS_keys (record_id v : str) :
  SPECIAL_MODELS !! record_id = Some v -> truthy record_id = true.
Proof.
  intros H. apply elem_of_list_to_map_2 in H.
  repeat (apply elem_of_cons in H as [H|H]; [injection H as -> ->; reflexivity|]).
  now apply elem_of_nil in H.
Qed.

(** ** The program, path by path *)

Section ProgramFacts.

Variable db : ucd.

(** Once a key is chosen, the file is overwritten with the annotated
    text. *)
Lemma write_use_api_key_spec (file_path content v : str) (w : world) :
  plain v = true ->
  exists k out,
    write_use_api_key db file_path content v w = Ok true (with_file file_path out w) /\
    annotated db v k content out.
Proof.
  intros Hv. unfold write_use_api_key, re_sub, Sre.re_sub.
  rewrite (parse_use_api_key_template db v Hv). cbn [option_map].
  change (Sre.parse_template (Sre.groups model_config_re) MODEL_CONFIG_use_api_key)
    with (Some (map Sre.Text MODEL_CONFIG_use_api_key)).
  cbn [option_map].
  destruct (sub_content_type_line db v content) as [k Hk].
  destruct (sub_literals MODEL_CONFIG_contentType MODEL_CONFIG_use_api_key
              (Sre.sub_from (content_type_line_re db)
                 (Sre.Group 1 :: map Sre.Text (use_api_key_line v)) content 0))
    as [k' Hk']; [discriminate|].
  exists k. eexists. split; [reflexivity|].
  eexists. exists k'. split; eassumption.
Qed.

Lemma process_already_present (file_path content : str) (w : world) :
  text_of w file_path = Some content ->
  contains (py "use_api_key:") content = true ->
  process_model_file db file_path w = Ok false w.
Proof.
  intros Hf Hc. unfold process_model_file, bind, read_text. now rewrite Hf, Hc.
Qed.

Lemma process_no_fields (file_path content : str) (w : world) :
  text_of w file_path = Some content ->
  Sre.re_search (provider_re db) content = None \/
  Sre.re_search (content_type_re db) content = None ->
  process_model_file db file_path w = Ok false w.
Proof.
  intros Hf Hnone. unfold process_model_file, bind, read_text. rewrite Hf.
  destruct (contains (py "use_api_key:") content); [reflexivity|].
  destruct Hnone as [-> | ->]; [reflexivity|].
  now destruct (Sre.re_search (provider_re db) content).
Qed.

Lemma process_special (file_path content : str) (w : world) pm cm rm v :
  text_of w file_path = Some content ->
  contains (py "use_api_key:") content = false ->
  Sre.re_search (provider_re db) content = Some pm ->
  Sre.re_search (content_type_re db) content = Some cm ->
  Sre.re_search (record_id_re db) content = Some rm ->
  SPECIAL_MODELS !! Sre.group rm 1 = Some v ->
  process_model_file db file_path w = write_use_api_key db file_path content v w.
Proof.
  intros Hf Hc Hp Hct Hr Hv. unfold process_model_file, bind at 1, read_text.
  rewrite Hf, Hc, Hp, Hct, Hr. cbn [option_map].
  now rewrite (SPECIAL_MODELS_keys _ _ Hv), Hv.
Qed.

Lemma process_mapping (file_path content : str) (w : world) pm cm v :
  text_of w file_path = Some content ->
  contains (py "use_api_key:") content = false ->
  Sre.re_search (provider_re db) content = Some pm ->
  Sre.re_search (content_type_re db) content = Some cm ->
  (forall rm, Sre.re_search (record_id_re db) content = Some rm ->
              SPECIAL_MODELS !! Sre.group rm 1 = None) ->
  API_KEY_MAPPING !! (Sre.group pm 1, Sre.group cm 1) = Some v ->
  process_model_file db file_path w = write_use_api_key db file_path content v w.
Proof.
  intros Hf Hc Hp Hct Hr Hv. unfold process_model_file, bind at 1, read_text.
  rewrite Hf, Hc, Hp, Hct.
  destruct (Sre.re_search (record_id_re db) content) as [rm|]; cbn [option_map].
  - rewrite (Hr rm eq_refl). destruct (truthy (Sre.group rm 1)); now rewrite Hv.
  - now rewrite Hv.
Qed.

Lemma process_unresolved (file_path content : str) (w : world) pm cm :
  text_of w file_path = Some content ->
  contains (py "use_api_key:") content = false ->
  Sre.re_search (provider_re db) content = Some pm ->
  Sre.re_search (content_type_re db) content = Some cm ->
  (forall rm, Sre.re_search (record_id_re db) content = Some rm ->
              SPECIAL_MODELS !! Sre.group rm 1 = None) ->
  API_KEY_MAPPING !! (Sre.group pm 1, Sre.group cm 1) = None ->
  process_model_file db file_path w =
  Ok false (with_lines [no_mapping_line (Sre.group pm 1) (Sre.group cm 1)] w).
Proof.
  intros Hf Hc Hp Hct Hr Hv. unfold process_model_file, bind, read_text.
  rewrite Hf, Hc, Hp, Hct.
  destruct (Sre.re_search (record_id_re db) content) as [rm|]; cbn [option_map].
  - rewrite (Hr rm eq_refl). destruct (truthy (Sre.group rm 1)); now rewrite Hv.
  - now rewrite Hv.
Qed.

(** The only way to [True] is through a key of one of the tables. *)
Lemma process_true_inv (file_path content : str) (w w' : world) :
  text_of w file_path = Some content ->
  process_model_file db file_path w = Ok true w' ->
  exists v, plain v = true /\
    write_use_api_key db file_path content v w = Ok true w'.
Proof.
  intros Hf. unfold process_model_file, bind at 1, read_text. rewrite Hf.
  destruct (contains (py "use_api_key:") content); [discriminate|].
  destruct (Sre.re_search (provider_re db) content) as [pm|]; [|discriminate].
  destruct (Sre.re_search (content_type_re db) content) as [cm|]; [|discriminate].
  destruct (match option_map (fun m => Sre.group m 1)
                    (Sre.re_search (record_id_re db) content) with
            | Some record_id =>
                if truthy record_id then SPECIAL_MODELS !! record_id else None
            | None => None
            end) as [v|] eqn:Hs.
  - intros H. exists v. split; [|assumption].
    destruct (option_map _ _) as [r|]; [|discriminate].
    destruct (truthy r); [|discriminate]. now apply SPECIAL_MODELS_plain in Hs.
  - destruct (API_KEY_MAPPING !! _) as [v|] eqn:Hm.
    + intros H. exists v. split; [|assumption]. now apply API_KEY_MAPPING_plain in Hm.
    + unfold bind, print, ret. discriminate.
Qed.

(** The loop of [main] on a file that is not a utility file. *)
Lemma for_each_cons (file_path : str) (rest : list str) u s (w : world) :
  str_in (name file_path) utility_files = false ->
  for_each db (file_path :: rest) u s w =
  match process_model_file db file_path w with
  | Ok true w' => for_each db rest (S u) s (with_lines [updated_line file_path] w')
  | Ok false w' => for_each db rest u (S s) w'
  | Raise e w' => Raise e w'
  end.
Proof.
  intros Hn. cbn [for_each]. rewrite Hn. unfold bind at 1.
  destruct (process_model_file db file_path w) as [[|] w'|e w']; reflexivity.
Qed.

End ProgramFacts.

(** * The claims *)

Lemma with_lines_app (a b : list str) (w : world) :
  with_lines b (with_lines a w) = with_lines (a ++ b) w.
Proof. unfold with_lines. simpl. now rewrite app_assoc. Qed.

Section Claims.

Variable db : ucd.

Lemma written_annotated (file_path content v : str) (w : world) :
  plain v = true ->
  exists k out,
    write_use_api_key db file_path content v w = Ok true (with_file file_path out w) /\
    annotated db v k content out /\
    ((exists a line b, content = a ++ line ++ b /\ content_type_line db line) -> 1 <= k).
Proof.
  intros Hv. destruct (write_use_api_key_spec db file_path content v w Hv)
    as (k & out & Hw & Ha).
  exists k, out. repeat split; try assumption.
  intros (a & line & b & Hc & Hl). destruct Ha as (mid & k' & Hi & _).
  eapply inserted_some; eassumption.
Qed.

(** C6. A file with provider and contentType extracted, no override for
    its recordId and no entry in API_KEY_MAPPING is not written: the
    files are as before, the call returns False, so that the loop counts
    the file as skipped, and the one line printed ends with the
    provider and the contentType that were extracted. *)
Theorem unresolved_mapping_reported
    (file_path content : str) (w : world) (pm cm : Sre.match_obj) :
  text_of w file_path = Some content ->
  contains (py "use_api_key:") content = false ->
  Sre.re_search (provider_re db) content = Some pm ->
  Sre.re_search (content_type_re db) content = Some cm ->
  (forall rm, Sre.re_search (record_id_re db) content = Some rm ->
              SPECIAL_MODELS !! Sre.group rm 1 = None) ->
  API_KEY_MAPPING !! (Sre.group pm 1, Sre.group cm 1) = None ->
  exists w',
    process_model_file db file_path w = Ok false w' /\
    files w' = files w /\ dirs w' = dirs w /\
    console w' = console w ++
      [ [32; 32; 9888; 65039; 32; 32]%N ++ py "No mapping for provider="
          ++ Sre.group pm 1 ++ py ", contentType=" ++ Sre.group cm 1 ] /\
    forall rest u s,
      str_in (name file_path) utility_files = false ->
      for_each db (file_path :: rest) u s w = for_each db rest u (S s) w'.
Proof.
  intros Hf Hc Hp Hct Hr Hv.
  pose proof (process_unresolved db _ _ _ _ _ Hf Hc Hp Hct Hr Hv) as H.
  eexists. split; [exact H|]. repeat split.
  intros rest u s Hn. now rewrite (for_each_cons db _ _ _ _ _ Hn), H.
Qed.

(** C7. A file from which provider or contentType cannot be extracted is
    not written and nothing is printed for it: the world is as before,
    the call returns False, and the loop counts the file as skipped.
    Nothing is asked of the recordId. *)
Theorem missing_field_skipped_silently
    (file_path content : str) (w : world) :
  text_of w file_path = Some content ->
  Sre.re_search (provider_re db) content = None \/
  Sre.re_search (content_type_re db) content = None ->
  process_model_file db file_path w = Ok false w /\
  forall rest u s,
    str_in (name file_path) utility_files = false ->
    for_each db (file_path :: rest) u s w = for_each db rest u (S s) w.
Proof.
  intros Hf Hnone. pose proof (process_no_fields db _ _ _ Hf Hnone) as H.
  split; [exact H|]. intros rest u s Hn.
  now rewrite (for_each_cons db _ _ _ _ _ Hn), H.
Qed.

(** C10, as amended. The provider pattern captures only non-empty values
    made of word characters; so a file in which every text of the form
    of a provider declaration, be it the declaration, a comment or a
    string, has a value with some other character has no provider, and
    is left as it is with nothing printed, whatever its recordId. *)
Theorem provider_is_word_characters
    (file_path content : str) (w : world) :
  (forall m, Sre.re_search (provider_re db) content = Some m ->
             Sre.group m 1 <> [] /\
             forallb (category_word db) (Sre.group m 1) = true) /\
  (text_of w file_path = Some content ->
   (forall v, In v (field_values db (py "provider:") content) ->
              forallb (category_word db) v = false) ->
   process_model_file db file_path w = Ok false w).
Proof.
  assert (Hm : forall m, Sre.re_search (provider_re db) content = Some m ->
             Sre.group m 1 <> [] /\
             forallb (category_word db) (Sre.group m 1) = true /\
             In (Sre.group m 1) (field_values db (py "provider:") content)).
  { intros m Hs.
    destruct (search_field db _ _ _ _ (word_not_quote db) Hs) as (pre & ws & r & Hc & Hd).
    destruct (decl_at_Some db _ _ _ _ _ _ Hd) as (q & q' & _ & _ & _ & Hne & Hw & _).
    repeat split; try assumption.
    rewrite Hc. apply field_values_suffix.
    eapply field_values_head, decl_at_weaken; [apply word_not_quote | exact Hd]. }
  split.
  - intros m Hs. destruct (Hm m Hs) as (H1 & H2 & _). now split.
  - intros Hf Hall. apply (process_no_fields db _ _ _ Hf). left.
    destruct (Sre.re_search (provider_re db) content) as [m|] eqn:Hs; [|reflexivity].
    destruct (Hm m eq_refl) as (_ & Hw & Hin). rewrite (Hall _ Hin) in Hw. discriminate.
Qed.

(** A call that returns True has resolved a value and gone on to write. *)
Lemma process_true_resolved (file_path content : str) (w w' : world) :
  text_of w file_path = Some content ->
  process_model_file db file_path w = Ok true w' ->
  exists v, resolved db content v /\ plain v = true /\
    write_use_api_key db file_path content v w = Ok true w'.
Proof.
  intros Hf. unfold process_model_file, bind at 1, read_text. rewrite Hf.
  destruct (contains (py "use_api_key:") content); [discriminate|].
  destruct (Sre.re_search (provider_re db) content) as [pm|] eqn:Hp; [|discriminate].
  destruct (Sre.re_search (content_type_re db) content) as [cm|] eqn:Hct; [|discriminate].
  assert (Hmap :
    (forall rm, Sre.re_search (record_id_re db) content = Some rm ->
                SPECIAL_MODELS !! Sre.group rm 1 = None) ->
    match API_KEY_MAPPING !! (Sre.group pm 1, Sre.group cm 1) with
    | Some use_api_key => write_use_api_key db file_path content use_api_key
    | None =>
        bind (print (no_mapping_line (Sre.group pm 1) (Sre.group cm 1)))
          (fun _ => ret false)
    end w = Ok true w' ->
    exists v, resolved db content v /\ plain v = true /\
      write_use_api_key db file_path content v w = Ok true w').
  { intros Hnone. destruct (API_KEY_MAPPING !! _) as [v|] eqn:Hm; [|discriminate].
    intros H. exists v. split; [|split; [eapply API_KEY_MAPPING_plain; eassumption | assumption]].
    exists pm, cm. auto. }
  destruct (Sre.re_search (record_id_re db) content) as [rm|] eqn:Hr; cbn [option_map].
  - destruct (truthy (Sre.group rm 1)) eqn:Ht.
    + destruct (SPECIAL_MODELS !! Sre.group rm 1) as [v|] eqn:Hs.
      * intros H. exists v.
        split; [|split; [eapply SPECIAL_MODELS_plain; eassumption | assumption]].
        exists pm, cm. split; [assumption|]. split; [assumption|]. left. eauto.
      * apply Hmap. now intros rm' [= <-].
    + apply Hmap. intros rm' [= <-]. destruct (Sre.group rm 1); [reflexivity|discriminate].
  - apply Hmap. discriminate.
Qed.

(** C3, as amended. When an annotation is applied to a file that has a
    contentType declaration followed by a comma, the new contents of the
    file are its old contents with every line end turned into LF, as
    reading in text mode does, and beyond that differ only by a line
    feed, two spaces and the field with the resolved value between
    quotes and a comma, put in right after the comma of each such
    declaration, at least one, and by each MODEL_CONFIG.contentType)
    rewritten to MODEL_CONFIG.use_api_key); nothing else of the file
    differs, and no other file, no directory and nothing of the
    console changes. *)
Theorem annotation_is_the_only_change
    (file_path raw : str) (w w' : world) :
  files w !! file_path = Some raw ->
  process_model_file db file_path w = Ok true w' ->
  (exists a line b,
     universal_newlines raw = a ++ line ++ b /\ content_type_line db line) ->
  exists v k out,
    resolved db (universal_newlines raw) v /\
    files w' !! file_path = Some out /\
    1 <= k /\
    annotated db v k (universal_newlines raw) out /\
    (forall other, other <> file_path -> files w' !! other = files w !! other) /\
    dirs w' = dirs w /\ console w' = console w.
Proof.
  intros Hraw Hp Hl.
  assert (Hf : text_of w file_path = Some (universal_newlines raw))
    by (unfold text_of; now rewrite Hraw).
  destruct (process_true_resolved _ _ _ _ Hf Hp) as (v & Hres & Hv & Hw).
  destruct (written_annotated file_path (universal_newlines raw) v w Hv)
    as (k & out & Hw' & Ha & Hk).
  rewrite Hw' in Hw. injection Hw as <-. exists v, k, out.
  split; [assumption|]. split; [apply lookup_insert_eq|]. split; [auto|].
  split; [assumption|]. split; [|split; reflexivity].
  intros other Hne. now apply lookup_insert_ne.
Qed.

(** C4, as amended. A file is passed over as already processed exactly
    when the text use_api_key: occurs anywhere in it, be it in a
    declaration, a comment or a string: with an occurrence the call
    returns False and leaves the world as it is; without one, a file
    whose provider and contentType are extracted and resolve to a key is
    updated. *)
Theorem already_processed_is_a_substring_test
    (file_path content : str) (w : world) :
  text_of w file_path = Some content ->
  ((exists a b, content = a ++ py "use_api_key:" ++ b) ->
   process_model_file db file_path w = Ok false w) /\
  (~ (exists a b, content = a ++ py "use_api_key:" ++ b) ->
   forall pm cm v,
     Sre.re_search (provider_re db) content = Some pm ->
     Sre.re_search (content_type_re db) content = Some cm ->
     (exists rm, Sre.re_search (record_id_re db) content = Some rm /\
                 SPECIAL_MODELS !! Sre.group rm 1 = Some v) \/
     ((forall rm, Sre.re_search (record_id_re db) content = Some rm ->
                  SPECIAL_MODELS !! Sre.group rm 1 = None) /\
      API_KEY_MAPPING !! (Sre.group pm 1, Sre.group cm 1) = Some v) ->
     exists out, process_model_file db file_path w = Ok true (with_file file_path out w)).
Proof.
  intros Hf. split.
  - intros Hocc. apply (process_already_present db _ _ _ Hf).
    now apply contains_iff.
  - intros Hno pm cm v Hp Hct Hkey.
    assert (Hc : contains (py "use_api_key:") content = false).
    { destruct (contains (py "use_api_key:") content) eqn:E; [|reflexivity].
      apply contains_iff in E. contradiction. }
    destruct Hkey as [(rm & Hr & Hv) | (Hr & Hv)].
    + rewrite (process_special db _ _ _ _ _ _ _ Hf Hc Hp Hct Hr Hv).
      destruct (written_annotated file_path content v w (SPECIAL_MODELS_plain _ _ Hv))
        as (k & out & H & _). now exists out.
    + rewrite (process_mapping db _ _ _ _ _ _ Hf Hc Hp Hct Hr Hv).
      destruct (written_annotated file_path content v w (API_KEY_MAPPING_plain _ _ Hv))
        as (k & out & H & _). now exists out.
Qed.

(** C8, as amended. When the root directory src/lib/models/locked does
    not exist the run does not fail: no file is processed, nothing is
    written, and the summary is printed with both counts at zero. *)
Theorem missing_root_prints_empty_summary (w : world) :
  dirs w !! py "src/lib/models/locked" = None ->
  main db w =
  Ok tt (with_lines [summary_title; summary_updated 0; summary_skipped 0] w).
Proof.
  intros Hd. unfold main, bind, rglob. rewrite Hd. cbn [for_each ret].
  unfold print. now rewrite !with_lines_app.
Qed.

(** C9, as amended. The loop prints a line of its own only for a file
    that is updated (the line names the file) and for a file whose
    mapping is unresolved (the line names the provider and the
    contentType, not the file); a file that already has the field, or
    that lacks provider or contentType, is counted as skipped with no
    line printed. *)
Theorem per_file_console_lines
    (file_path content : str) (rest : list str) (u s : nat) (w : world) :
  text_of w file_path = Some content ->
  str_in (name file_path) utility_files = false ->
  (contains (py "use_api_key:") content = true \/
   Sre.re_search (provider_re db) content = None \/
   Sre.re_search (content_type_re db) content = None ->
   for_each db (file_path :: rest) u s w = for_each db rest u (S s) w) /\
  (forall pm cm,
     contains (py "use_api_key:") content = false ->
     Sre.re_search (provider_re db) content = Some pm ->
     Sre.re_search (content_type_re db) content = Some cm ->
     (forall rm, Sre.re_search (record_id_re db) content = Some rm ->
                 SPECIAL_MODELS !! Sre.group rm 1 = None) ->
     API_KEY_MAPPING !! (Sre.group pm 1, Sre.group cm 1) = None ->
     for_each db (file_path :: rest) u s w =
     for_each db rest u (S s)
       (with_lines [no_mapping_line (Sre.group pm 1) (Sre.group cm 1)] w)) /\
  (forall w',
     process_model_file db file_path w = Ok true w' ->
     for_each db (file_path :: rest) u s w =
     for_each db rest (S u) s (with_lines [updated_line file_path] w')).
Proof.
  intros Hf Hn. rewrite (for_each_cons db _ _ _ _ _ Hn). repeat split.
  - intros [Hc | Hnone].
    + now rewrite (process_already_present db _ _ _ Hf Hc).
    + now rewrite (process_no_fields db _ _ _ Hf Hnone).
  - intros pm cm Hc Hp Hct Hr Hv.
    now rewrite (process_unresolved db _ _ _ _ _ Hf Hc Hp Hct Hr Hv).
  - intros w' Hp. now rewrite Hp.
Qed.

End Claims.

(** * Closed instances *)

Lemma search_content_type_line (db : ucd) (content : str) m :
  Sre.re_search (content_type_line_re db) content = Some m ->
  exists a line b, content = a ++ line ++ b /\ content_type_line db line.
Proof.
  intros Hs. apply SreFacts.search_from_Some in Hs as (pre & Hc & Hm & _).
  apply match_content_type_line_Some in Hm as (a & r & Ht & Ha & _).
  exists pre, a, r. split; [now rewrite Hc, Ht | assumption].
Qed.

Lemma no_occurrence (w s : str) :
  contains w s = false -> ~ (exists a b, s = a ++ w ++ b).
Proof. intros Hc H. apply contains_iff in H. congruence. Qed.

(** After [destruct (search) eqn:H]: the search does find a match; and
    the hypothesis that a search finds none. *)
Ltac found H := [> | vm_compute in H; discriminate H].
Ltac absent :=
  let rm := fresh in let H := fresh in intros rm H; vm_compute in H; discriminate H.

(** C6 on a model whose provider has no mapping. *)
Lemma unresolved_mapping_reported_witness :
  exists w',
    process_model_file ucd_ascii Veo3_ts (one_file (py "Veo3.ts") unmapped_file)
      = Ok false w' /\
    files w' = files (one_file (py "Veo3.ts") unmapped_file) /\
    console w' =
      [ [32; 32; 9888; 65039; 32; 32]%N
          ++ py "No mapping for provider=openai, contentType=prompt_to_image" ] /\
    for_each ucd_ascii [Veo3_ts] 0 0 (one_file (py "Veo3.ts") unmapped_file)
      = Ok (0, 1) w'.
Proof.
  destruct (Sre.re_search (provider_re ucd_ascii) unmapped_file) as [pm|] eqn:Hp;
    found Hp.
  destruct (Sre.re_search (content_type_re ucd_ascii) unmapped_file) as [cm|] eqn:Hct;
    found Hct.
  destruct (unresolved_mapping_reported ucd_ascii Veo3_ts unmapped_file
              (one_file (py "Veo3.ts") unmapped_file) pm cm)
    as (w' & Hproc & Hfiles & _ & Hcons & Hloop);
    [reflexivity | reflexivity | assumption | assumption | absent | |].
  - vm_compute in Hp, Hct. injection Hp as <-. injection Hct as <-. reflexivity.
  - exists w'. repeat split; try assumption; [|exact (Hloop [] 0 0 eq_refl)].
    vm_compute in Hp, Hct. injection Hp as <-. injection Hct as <-.
    rewrite Hcons. reflexivity.
Defined.

(** C7 on an override model without a provider. *)
Lemma missing_field_skipped_silently_witness :
  process_model_file ucd_ascii Veo3_ts (one_file (py "Veo3.ts") no_provider_file)
    = Ok false (one_file (py "Veo3.ts") no_provider_file) /\
  for_each ucd_ascii [Veo3_ts] 0 0 (one_file (py "Veo3.ts") no_provider_file)
    = Ok (0, 1) (one_file (py "Veo3.ts") no_provider_file) /\
  exists rm,
    Sre.re_search (record_id_re ucd_ascii) no_provider_file = Some rm /\
    SPECIAL_MODELS !! Sre.group rm 1 = Some (py "KIE_AI_API_KEY_VEO3").
Proof.
  destruct (missing_field_skipped_silently ucd_ascii Veo3_ts no_provider_file
              (one_file (py "Veo3.ts") no_provider_file))
    as [Hproc Hloop]; [reflexivity | left; reflexivity |].
  split; [assumption|]. split; [exact (Hloop [] 0 0 eq_refl)|].
  destruct (Sre.re_search (record_id_re ucd_ascii) no_provider_file) as [rm|] eqn:Hr;
    found Hr.
  exists rm. split; [reflexivity|].
  vm_compute in Hr. injection Hr as <-. reflexivity.
Defined.

(** C10 on an override model whose provider has a hyphen. *)
Lemma provider_is_word_characters_witness :
  field_values ucd_ascii (py "provider:") hyphen_file = [py "kie-ai"] /\
  process_model_file ucd_ascii Veo3_ts (one_file (py "Veo3.ts") hyphen_file)
    = Ok false (one_file (py "Veo3.ts") hyphen_file) /\
  exists rm,
    Sre.re_search (record_id_re ucd_ascii) hyphen_file = Some rm /\
    SPECIAL_MODELS !! Sre.group rm 1 = Some (py "KIE_AI_API_KEY_VEO3").
Proof.
  assert (Hvals : field_values ucd_ascii (py "provider:") hyphen_file = [py "kie-ai"])
    by reflexivity.
  split; [assumption|]. split.
  - apply (proj2 (provider_is_word_characters ucd_ascii Veo3_ts hyphen_file
                    (one_file (py "Veo3.ts") hyphen_file))); [reflexivity|].
    intros v Hv. rewrite Hvals in Hv. destruct Hv as [<- | []]. reflexivity.
  - destruct (Sre.re_search (record_id_re ucd_ascii) hyphen_file) as [rm|] eqn:Hr;
      found Hr.
    exists rm. split; [reflexivity|].
    vm_compute in Hr. injection Hr as <-. reflexivity.
Defined.

(** C3, witness of the amended statement: the mapped model with CR LF
    line ends. *)
Lemma annotation_is_the_only_change_witness :
  universal_newlines crlf_file = image_editing_file /\
  exists v k out,
    resolved ucd_ascii image_editing_file v /\
    files (world_of (process_model_file ucd_ascii Veo3_ts
                       (one_file (py "Veo3.ts") crlf_file))) !! Veo3_ts = Some out /\
    1 <= k /\
    annotated ucd_ascii v k image_editing_file out.
Proof.
  split; [reflexivity|].
  destruct (process_model_file ucd_ascii Veo3_ts (one_file (py "Veo3.ts") crlf_file))
    as [[|] w'|e w'] eqn:Hproc;
    [ | vm_compute in Hproc; discriminate Hproc | vm_compute in Hproc; discriminate Hproc ].
  destruct (Sre.re_search (content_type_line_re ucd_ascii) image_editing_file)
    as [lm|] eqn:Hl; found Hl.
  destruct (annotation_is_the_only_change ucd_ascii Veo3_ts crlf_file
              (one_file (py "Veo3.ts") crlf_file) w')
    as (v & k & out & Hres & Hout & Hk & Hann & _);
    [reflexivity | assumption | eapply search_content_type_line; eassumption |].
  exists v, k, out. cbn [world_of]. auto.
Defined.

Lemma not_only_rewritten (spec out : str) :
  contains MODEL_CONFIG_contentType spec = false ->
  bool_decide (out = spec) = false ->
  ~ (exists k, rewritten MODEL_CONFIG_contentType MODEL_CONFIG_use_api_key k spec out).
Proof.
  intros Hc Hne [k Hk]. apply rewritten_none in Hk as [Heq _]; [|assumption].
  apply bool_decide_eq_false in Hne. contradiction.
Qed.

(** C3 fails as stated, in three ways.  The anchor line is indented by
    four spaces and the line the program adds by two.  A file with
    CR LF line ends is written back with LF line ends throughout.  A
    file with two contentType declarations gets two lines, both with
    the value resolved from the first.  In each case the text written
    is not the text of the file with one line of the anchor's
    indentation added after the first contentType line. *)
Lemma annotation_is_not_one_added_line :
  (process_model_file ucd_ascii Veo3_ts (one_file (py "Veo3.ts") indented_file)
     = Ok true
         (with_file Veo3_ts
            (join_lines [
               py "export const MODEL_CONFIG = {";
               field_line "    " "provider" "kie_ai";
               field_line "    " "contentType" "image_editing";
               field_line "  " "use_api_key" "KIE_AI_API_KEY_IMAGE_EDITING";
               py "};" ])
            (one_file (py "Veo3.ts") indented_file)) /\
   ~ (exists k,
        rewritten MODEL_CONFIG_contentType MODEL_CONFIG_use_api_key k
          (spec_insert (py "KIE_AI_API_KEY_IMAGE_EDITING") indented_file)
          (join_lines [
             py "export const MODEL_CONFIG = {";
             field_line "    " "provider" "kie_ai";
             field_line "    " "contentType" "image_editing";
             field_line "  " "use_api_key" "KIE_AI_API_KEY_IMAGE_EDITING";
             py "};" ]))) /\
  (process_model_file ucd_ascii Veo3_ts (one_file (py "Veo3.ts") crlf_file)
     = Ok true
         (with_file Veo3_ts
            (join_lines [
               py "export const MODEL_CONFIG = {";
               field_line "  " "provider" "kie_ai";
               field_line "  " "contentType" "image_editing";
               field_line "  " "use_api_key" "KIE_AI_API_KEY_IMAGE_EDITING";
               py "};" ])
            (one_file (py "Veo3.ts") crlf_file)) /\
   ~ (exists k,
        rewritten MODEL_CONFIG_contentType MODEL_CONFIG_use_api_key k
          (spec_insert (py "KIE_AI_API_KEY_IMAGE_EDITING") crlf_file)
          (join_lines [
             py "export const MODEL_CONFIG = {";
             field_line "  " "provider" "kie_ai";
             field_line "  " "contentType" "image_editing";
             field_line "  " "use_api_key" "KIE_AI_API_KEY_IMAGE_EDITING";
             py "};" ]))) /\
  (process_model_file ucd_ascii Veo3_ts (one_file (py "Veo3.ts") two_declarations_file)
     = Ok true
         (with_file Veo3_ts
            (join_lines [
               py "export const MODEL_CONFIG = {";
               field_line "  " "provider" "kie_ai";
               field_line "  " "contentType" "image_editing";
               field_line "  " "use_api_key" "KIE_AI_API_KEY_IMAGE_EDITING";
               py "};";
               py "export const FALLBACK = {";
               field_line "  " "contentType" "image_to_video";
               field_line "  " "use_api_key" "KIE_AI_API_KEY_IMAGE_EDITING";
               py "};" ])
            (one_file (py "Veo3.ts") two_declarations_file)) /\
   ~ (exists k,
        rewritten MODEL_CONFIG_contentType MODEL_CONFIG_use_api_key k
          (spec_insert (py "KIE_AI_API_KEY_IMAGE_EDITING") two_declarations_file)
          (join_lines [
             py "export const MODEL_CONFIG = {";
             field_line "  " "provider" "kie_ai";
             field_line "  " "contentType" "image_editing";
             field_line "  " "use_api_key" "KIE_AI_API_KEY_IMAGE_EDITING";
             py "};";
             py "export const FALLBACK = {";
             field_line "  " "contentType" "image_to_video";
             field_line "  " "use_api_key" "KIE_AI_API_KEY_IMAGE_EDITING";
             py "};" ]))).
Proof.
  split; [|split]; (split; [vm_compute; reflexivity|]);
    (apply not_only_rewritten; vm_compute; reflexivity).
Qed.

(** C4, witness of the amended statement: the field name in a comment is
    an occurrence; without the comment the same model is updated. *)
Lemma already_processed_is_a_substring_test_witness :
  process_model_file ucd_ascii Veo3_ts (one_file (py "Veo3.ts") commented_file)
    = Ok false (one_file (py "Veo3.ts") commented_file) /\
  exists out,
    process_model_file ucd_ascii Veo3_ts (one_file (py "Veo3.ts") image_editing_file)
      = Ok true (with_file Veo3_ts out (one_file (py "Veo3.ts") image_editing_file)).
Proof.
  split.
  - apply (proj1 (already_processed_is_a_substring_test ucd_ascii Veo3_ts commented_file
                    (one_file (py "Veo3.ts") commented_file) eq_refl)).
    apply contains_iff. reflexivity.
  - destruct (Sre.re_search (provider_re ucd_ascii) image_editing_file) as [pm|] eqn:Hp;
      found Hp.
    destruct (Sre.re_search (content_type_re ucd_ascii) image_editing_file)
      as [cm|] eqn:Hct; found Hct.
    apply (proj2 (already_processed_is_a_substring_test ucd_ascii Veo3_ts
                    image_editing_file (one_file (py "Veo3.ts") image_editing_file) eq_refl)
             (no_occurrence (py "use_api_key:") image_editing_file eq_refl) pm cm (py "KIE_AI_API_KEY_IMAGE_EDITING") Hp Hct).
    right. split; [absent|].
    vm_compute in Hp, Hct. injection Hp as <-. injection Hct as <-. reflexivity.
Defined.

(** C4 fails as stated: the only occurrence of the field name is in a
    comment, no line declares the field, and yet the file is passed over
    as already processed; the same model without the comment is
    updated. *)
Lemma comment_counts_as_already_processed :
  spec_declares (py "use_api_key:") commented_file = false /\
  commented_file
    = py "// use_api_key: to be added by the migration" ++ NEWLINE :: image_editing_file /\
  process_model_file ucd_ascii Veo3_ts (one_file (py "Veo3.ts") commented_file)
    = Ok false (one_file (py "Veo3.ts") commented_file) /\
  process_model_file ucd_ascii Veo3_ts (one_file (py "Veo3.ts") image_editing_file)
    = Ok true
        (with_file Veo3_ts
           (join_lines [
              py "export const MODEL_CONFIG = {";
              field_line "  " "provider" "kie_ai";
              field_line "  " "contentType" "image_editing";
              field_line "  " "use_api_key" "KIE_AI_API_KEY_IMAGE_EDITING";
              py "};" ])
           (one_file (py "Veo3.ts") image_editing_file)).
Proof. repeat split; reflexivity. Qed.

(** C8, witness of the amended statement: a world without the root. *)
Lemma missing_root_prints_empty_summary_witness :
  main ucd_ascii {| dirs := ∅; files := ∅; console := [] |}
    = Ok tt {| dirs := ∅; files := ∅;
               console := [summary_title; summary_updated 0; summary_skipped 0] |}.
Proof.
  exact (missing_root_prints_empty_summary ucd_ascii
           {| dirs := ∅; files := ∅; console := [] |} eq_refl).
Defined.

(** C8 fails as stated: with no root directory the run ends normally,
    not with an exception, and prints the summary with zero counts. *)
Lemma missing_root_is_not_fatal :
  main ucd_ascii {| dirs := ∅; files := ∅; console := [] |}
    = Ok tt {| dirs := ∅; files := ∅;
               console :=
                 [ NEWLINE :: 128202%N :: py " Summary:";
                   py "   Updated: 0 files";
                   py "   Skipped: 0 files" ] |}.
Proof. reflexivity. Qed.

(** C9, witness of the amended statement: a file that has the field
    already, one with no mapping, and one that is updated. *)
Lemma per_file_console_lines_witness :
  for_each ucd_ascii [Veo3_ts] 0 0 (one_file (py "Veo3.ts") annotated_file)
    = Ok (0, 1) (one_file (py "Veo3.ts") annotated_file) /\
  for_each ucd_ascii [Veo3_ts] 0 0 (one_file (py "Veo3.ts") unmapped_file)
    = Ok (0, 1)
        (with_lines [no_mapping_line (py "openai") (py "prompt_to_image")]
           (one_file (py "Veo3.ts") unmapped_file)) /\
  exists w',
    process_model_file ucd_ascii Veo3_ts (one_file (py "Veo3.ts") image_editing_file)
      = Ok true w' /\
    for_each ucd_ascii [Veo3_ts] 0 0 (one_file (py "Veo3.ts") image_editing_file)
      = Ok (1, 0) (with_lines [updated_line Veo3_ts] w').
Proof.
  split; [|split].
  - apply (proj1 (per_file_console_lines ucd_ascii Veo3_ts annotated_file [] 0 0
                    (one_file (py "Veo3.ts") annotated_file) eq_refl eq_refl)).
    left. reflexivity.
  - destruct (Sre.re_search (provider_re ucd_ascii) unmapped_file) as [pm|] eqn:Hp;
      found Hp.
    destruct (Sre.re_search (content_type_re ucd_ascii) unmapped_file) as [cm|] eqn:Hct;
      found Hct.
    rewrite (proj1 (proj2 (per_file_console_lines ucd_ascii Veo3_ts unmapped_file [] 0 0
                      (one_file (py "Veo3.ts") unmapped_file) eq_refl eq_refl)) pm cm).
    + vm_compute in Hp, Hct. injection Hp as <-. injection Hct as <-. reflexivity.
    + reflexivity.
    + assumption.
    + assumption.
    + absent.
    + vm_compute in Hp, Hct. injection Hp as <-. injection Hct as <-. reflexivity.
  - destruct (process_model_file ucd_ascii Veo3_ts
                (one_file (py "Veo3.ts") image_editing_file))
      as [[|] w'|e w'] eqn:Hproc;
      [ | vm_compute in Hproc; discriminate Hproc
        | vm_compute in Hproc; discriminate Hproc ].
    exists w'. split; [reflexivity|].
    exact (proj2 (proj2 (per_file_console_lines ucd_ascii Veo3_ts image_editing_file
                           [] 0 0 (one_file (py "Veo3.ts") image_editing_file)
                           eq_refl eq_refl)) w' Hproc).
Defined.

(** C9 fails as stated: the one file of the tree has the field already;
    the run prints the three lines of the summary and no line for the
    file. *)
Lemma already_present_prints_no_line :
  main ucd_ascii (one_file (py "Veo3.ts") annotated_file)
    = Ok tt
        (with_lines
           [ NEWLINE :: 128202%N :: py " Summary:";
             py "   Updated: 0 files";
             py "   Skipped: 1 files" ]
           (one_file (py "Veo3.ts") annotated_file)).
Proof. reflexivity. Qed.

(** C2, the failing input: the contentType declaration has no comma
    after it, so the first run adds nothing and still reports the file
    as updated; the second run finds the file as it was and reports it
    as updated again, where the claim has every file skipped and an
    updated count of zero. *)
Theorem second_run_updates_again :
  exists w1 w2,
    main ucd_ascii (one_file (py "Veo3.ts") no_comma_file) = Ok tt w1 /\
    main ucd_ascii w1 = Ok tt w2 /\
    files w1 = files (one_file (py "Veo3.ts") no_comma_file) /\
    files w2 = files w1 /\
    console w1 =
      [ 9989%N :: py " Updated: src/lib/models/locked/Veo3.ts";
        NEWLINE :: 128202%N :: py " Summary:";
        py "   Updated: 1 files";
        py "   Skipped: 0 files" ] /\
    console w2 = console w1 ++
      [ 9989%N :: py " Updated: src/lib/models/locked/Veo3.ts";
        NEWLINE :: 128202%N :: py " Summary:";
        py "   Updated: 1 files";
        py "   Skipped: 0 files" ].
Proof.
  eexists. eexists. split; [vm_compute; reflexivity|].
  split; [vm_compute; reflexivity|]. repeat split; reflexivity.
Qed.



(** C10 fails as stated: the provider field of the file has a hyphen in
    its value, and yet a provider is found, in the comment above, and
    the file is annotated. *)
Lemma comment_provider_is_extracted :
  spec_field (py "provider:") comment_provider_file = Some (py "kie-ai") /\
  forallb (category_word ucd_ascii) (py "kie-ai") = false /\
  option_map (fun m => Sre.group m 1)
    (Sre.re_search (provider_re ucd_ascii) comment_provider_file)
    = Some (py "runware") /\
  process_model_file ucd_ascii Veo3_ts (one_file (py "Veo3.ts") comment_provider_file)
    = Ok true
        (with_file Veo3_ts
           (join_lines [
              py "// old provider: " ++ dq "runware";
              py "export const MODEL_CONFIG = {";
              field_line "  " "recordId" "8aac94cb-5625-47f4-880c-4f0fd8bd83a1";
              field_line "  " "provider" "kie-ai";
              field_line "  " "contentType" "prompt_to_video";
              field_line "  " "use_api_key" "KIE_AI_API_KEY_VEO3";
              py "};" ])
           (one_file (py "Veo3.ts") comment_provider_file)).
Proof. repeat split; vm_compute; reflexivity. Qed.

(** C1, the failing input: an override model whose contentType
    declaration has no comma after it.  Provider, contentType and
    recordId are extracted and the recordId is a key of SPECIAL_MODELS,
    the call returns True, and the text written is the text read: the
    override value is not in the file. *)
Theorem override_without_comma_is_not_written :
  option_map (fun m => Sre.group m 1)
    (Sre.re_search (provider_re ucd_ascii) no_comma_override_file)
    = Some (py "kie_ai") /\
  option_map (fun m => Sre.group m 1)
    (Sre.re_search (content_type_re ucd_ascii) no_comma_override_file)
    = Some (py "prompt_to_video") /\
  option_map (fun m => Sre.group m 1)
    (Sre.re_search (record_id_re ucd_ascii) no_comma_override_file)
    = Some (py "8aac94cb-5625-47f4-880c-4f0fd8bd83a1") /\
  SPECIAL_MODELS !! py "8aac94cb-5625-47f4-880c-4f0fd8bd83a1"
    = Some (py "KIE_AI_API_KEY_VEO3") /\
  process_model_file ucd_ascii Veo3_ts (one_file (py "Veo3.ts") no_comma_override_file)
    = Ok true
        (with_file Veo3_ts no_comma_override_file
           (one_file (py "Veo3.ts") no_comma_override_file)) /\
  contains (py "use_api_key") no_comma_override_file = false /\
  contains (py "KIE_AI_API_KEY_VEO3") no_comma_override_file = false.
Proof. repeat split; vm_compute; reflexivity. Qed.

(** C5, the failing input: a model of a mapped category, without a
    recordId, whose contentType declaration has no comma after it.
    Provider and contentType are extracted and form a key of
    API_KEY_MAPPING, the call returns True, and the text written is the
    text read: the mapping's value is not in the file. *)
Theorem mapping_without_comma_is_not_written :
  option_map (fun m => Sre.group m 1)
    (Sre.re_search (provider_re ucd_ascii) no_comma_file) = Some (py "kie_ai") /\
  option_map (fun m => Sre.group m 1)
    (Sre.re_search (content_type_re ucd_ascii) no_comma_file)
    = Some (py "image_editing") /\
  Sre.re_search (record_id_re ucd_ascii) no_comma_file = None /\
  API_KEY_MAPPING !! (py "kie_ai", py "image_editing")
    = Some (py "KIE_AI_API_KEY_IMAGE_EDITING") /\
  process_model_file ucd_ascii Veo3_ts (one_file (py "Veo3.ts") no_comma_file)
    = Ok true (with_file Veo3_ts no_comma_file (one_file (py "Veo3.ts") no_comma_file)) /\
  contains (py "use_api_key") no_comma_file = false /\
  contains (py "KIE_AI_API_KEY_IMAGE_EDITING") no_comma_file = false.
Proof. repeat split; vm_compute; reflexivity. Qed.

(** ** Line ends *)

(** A text that was read has no CR, and reading a text without CR gives
    the text itself. *)
Lemma universal_newlines_no_cr (raw : str) : ~ In CR (universal_newlines raw).
Proof.
  induction raw as [raw IH] using (induction_ltof1 _ (@length N)). unfold ltof in IH.
  destruct raw as [|c rest]; [intros []|]. cbn [universal_newlines].
  destruct (N.eqb c CR) eqn:Ec.
  - destruct rest as [|n rest'].
    + intros [H|[]]. discriminate.
    + destruct (N.eqb n NEWLINE).
      * intros [H|H]; [discriminate|]. revert H. apply IH. cbn. lia.
      * intros [H|H]; [discriminate|]. revert H. apply IH. cbn. lia.
  - intros [H|H].
    + subst c. discriminate.
    + revert H. apply IH. cbn. lia.
Qed.

Lemma universal_newlines_fixed (s : str) : ~ In CR s -> universal_newlines s = s.
Proof.
  induction s as [|c s IH]; intros H; [reflexivity|]. cbn [universal_newlines].
  destruct (N.eqb c CR) eqn:Ec.
  - apply N.eqb_eq in Ec. subst c. destruct H. now left.
  - f_equal. apply IH. intros Hin. apply H. now right.
Qed.

Lemma text_of_no_cr (w : world) (path content : str) :
  text_of w path = Some content -> ~ In CR content.
Proof.
  unfold text_of. destruct (files w !! path) as [raw|]; [|discriminate].
  intros [= <-]. apply universal_newlines_no_cr.
Qed.

Lemma text_of_None (w : world) (path : str) :
  text_of w path = None <-> files w !! path = None.
Proof. unfold text_of. destruct (files w !! path); split; intros H; now try discriminate. Qed.

Lemma text_of_same (w w' : world) (path : str) :
  files w' !! path = files w !! path -> text_of w' path = text_of w path.
Proof. unfold text_of. now intros ->. Qed.

Lemma text_of_written (w : world) (path out : str) :
  ~ In CR out -> text_of (with_file path out w) path = Some out.
Proof.
  intros H. unfold text_of. cbn [files with_file]. rewrite lookup_insert_eq.
  cbn [option_map]. now rewrite universal_newlines_fixed.
Qed.

(** The substitutions bring in no CR. *)
Lemma rewritten_no_cr (old new s t : str) k :
  rewritten old new k s t -> ~ In CR new -> ~ In CR s -> ~ In CR t.
Proof.
  induction 1 as [|s t k H IH|c s t k Hst H IH]; intros Hnew Hs.
  - assumption.
  - rewrite in_app_iff in *. tauto.
  - cbn [In] in *. tauto.
Qed.

Lemma inserted_no_cr (db : ucd) (ins s t : str) k :
  inserted db ins k s t -> ~ In CR ins -> ~ In CR s -> ~ In CR t.
Proof.
  induction 1 as [|a s t k Ha H IH|c s t k Hno H IH]; intros Hins Hs.
  - assumption.
  - rewrite !in_app_iff in *. tauto.
  - cbn [In] in *. tauto.
Qed.

(** The values of the tables are made of capitals, digits and
    underscores. *)
Lemma table_value_key_chars (v : str) : table_value v -> forallb key_char v = true.
Proof.
  intros [[r H] | [key H]]; apply elem_of_list_to_map_2 in H;
    repeat (apply elem_of_cons in H as [H|H]; [injection H as -> ->; reflexivity|]);
    now apply elem_of_nil in H.
Qed.

Lemma key_chars_without (c : N) (v : str) :
  key_char c = false -> forallb key_char v = true -> ~ In c v.
Proof.
  intros Hc Hv Hin. rewrite forallb_forall in Hv. specialize (Hv c Hin). congruence.
Qed.

Lemma use_api_key_line_chars (c : N) (v : str) :
  In c (use_api_key_line v) -> In c v \/ In c (use_api_key_line []).
Proof.
  unfold use_api_key_line. cbn [In app py map list_ascii_of_string].
  rewrite !in_app_iff. cbn [In]. tauto.
Qed.

Lemma use_api_key_line_without (c : N) (v : str) :
  key_char c = false -> ~ In c (use_api_key_line []) ->
  table_value v -> ~ In c (use_api_key_line v).
Proof.
  intros Hc Hfix Hv Hin. apply use_api_key_line_chars in Hin as [Hin | Hin]; [|tauto].
  revert Hin. apply key_chars_without; [assumption | now apply table_value_key_chars].
Qed.

Lemma annotated_no_cr (db : ucd) (v content out : str) k :
  table_value v -> annotated db v k content out -> ~ In CR content -> ~ In CR out.
Proof.
  intros Hv (mid & k' & Hi & Hr) Hc.
  eapply rewritten_no_cr; [eassumption | vm_compute; intuition discriminate |].
  eapply inserted_no_cr; [eassumption | | assumption].
  apply use_api_key_line_without; [reflexivity | vm_compute; intuition discriminate | assumption].
Qed.

(** * Further properties of the program *)

Section Further.

Variable db : ucd.

(** The ways a call of [process_model_file] can end. *)
Lemma process_cases (file_path : str) (w : world) :
  match text_of w file_path with
  | None => process_model_file db file_path w = Raise OSError w
  | Some content =>
      process_model_file db file_path w = Ok false w \/
      (exists provider content_type,
         process_model_file db file_path w =
         Ok false (with_lines [no_mapping_line provider content_type] w)) \/
      (exists v k out,
         process_model_file db file_path w = Ok true (with_file file_path out w) /\
         table_value v /\ annotated db v k content out /\
         ((exists a line b, content = a ++ line ++ b /\ content_type_line db line) ->
          1 <= k))
  end.
Proof.
  destruct (text_of w file_path) as [content|] eqn:Hf.
  - destruct (contains (py "use_api_key:") content) eqn:Hc.
    { left. now apply (process_already_present db _ content). }
    destruct (Sre.re_search (provider_re db) content) as [pm|] eqn:Hp;
      [|left; apply (process_no_fields db _ content); auto].
    destruct (Sre.re_search (content_type_re db) content) as [cm|] eqn:Hct;
      [|left; apply (process_no_fields db _ content); auto].
    assert (Hadd : forall v, table_value v ->
      process_model_file db file_path w = write_use_api_key db file_path content v w ->
      exists v k out,
        process_model_file db file_path w = Ok true (with_file file_path out w) /\
        table_value v /\ annotated db v k content out /\
        ((exists a line b, content = a ++ line ++ b /\ content_type_line db line) ->
         1 <= k)).
    { intros v Hv Hw.
      assert (Hplain : plain v = true).
      { destruct Hv as [[r Hr] | [key Hk]];
          [eapply SPECIAL_MODELS_plain | eapply API_KEY_MAPPING_plain]; eassumption. }
      destruct (written_annotated db file_path content v w Hplain)
        as (k & out & Hout & Hann & Hk).
      exists v, k, out. rewrite Hw. auto. }
    destruct (Sre.re_search (record_id_re db) content) as [rm|] eqn:Hr.
    + destruct (SPECIAL_MODELS !! Sre.group rm 1) as [v|] eqn:Hs.
      * right. right. apply (Hadd v); [left; eauto|].
        eapply process_special; eassumption.
      * destruct (API_KEY_MAPPING !! (Sre.group pm 1, Sre.group cm 1)) as [v|] eqn:Hm.
        -- right. right. apply (Hadd v); [right; eauto|].
           eapply process_mapping; try eassumption. intros rm' Hr'. rewrite Hr in Hr'. now injection Hr' as <-.
        -- right. left. exists (Sre.group pm 1), (Sre.group cm 1).
           eapply process_unresolved; try eassumption. intros rm' Hr'. rewrite Hr in Hr'. now injection Hr' as <-.
    + destruct (API_KEY_MAPPING !! (Sre.group pm 1, Sre.group cm 1)) as [v|] eqn:Hm.
      * right. right. apply (Hadd v); [right; eauto|].
        eapply process_mapping; try eassumption. intros rm' Hr'. rewrite Hr in Hr'. discriminate.
      * right. left. exists (Sre.group pm 1), (Sre.group cm 1).
        eapply process_unresolved; try eassumption. intros rm' Hr'. rewrite Hr in Hr'. discriminate.
  - unfold process_model_file, bind, read_text. now rewrite Hf.
Qed.

(** When a call raises. *)
Lemma process_raise_inv (file_path : str) (w : world) :
  (files w !! file_path = None ->
   process_model_file db file_path w = Raise OSError w) /\
  (forall e w', process_model_file db file_path w = Raise e w' ->
                e = OSError /\ w' = w /\ files w !! file_path = None).
Proof.
  pose proof (process_cases file_path w) as H. split.
  - intros Hf. apply text_of_None in Hf. now rewrite Hf in H.
  - intros e w' Hr. destruct (text_of w file_path) as [content|] eqn:Hf.
    + destruct H as [H | [(p & c & H) | (v & k & out & H & _)]];
        rewrite H in Hr; discriminate.
    + rewrite H in Hr. injection Hr as <- <-. apply text_of_None in Hf. auto.
Qed.

(** X1. A call of [process_model_file] on a path at which there is no
    file to open raises OSError, with no file written and nothing
    printed; and no call raises re.error: the patterns are fixed and
    the replacement made from a value of the tables is a well-formed
    template. *)
Theorem missing_file_raises_OSError (file_path : str) (w : world) :
  (files w !! file_path = None ->
   process_model_file db file_path w = Raise OSError w) /\
  (forall w', process_model_file db file_path w <> Raise re_error w').
Proof.
  destruct (process_raise_inv file_path w) as [Hnone Hraise]. split; [assumption|].
  intros w' Hr. destruct (Hraise _ _ Hr) as [He _]. discriminate.
Qed.

(** X2. A call that returns False has written no file: the files and
    directories are as before, and the console has gained nothing or the
    one line that reports a missing mapping. *)
Theorem skipped_file_is_not_written (file_path : str) (w w' : world) :
  process_model_file db file_path w = Ok false w' ->
  files w' = files w /\ dirs w' = dirs w /\
  (console w' = console w \/
   exists provider content_type,
     console w' = console w ++ [no_mapping_line provider content_type]).
Proof.
  intros Hp. pose proof (process_cases file_path w) as H.
  destruct (text_of w file_path) as [content|].
  - destruct H as [H | [(p & c & H) | (v & k & out & H & _)]];
      rewrite H in Hp; [| |discriminate]; injection Hp as <-; simpl; eauto 6.
  - rewrite H in Hp. discriminate.
Qed.

(** What a call leaves alone. *)
Lemma process_frame (file_path : str) (w : world) :
  let w' := world_of (process_model_file db file_path w) in
  (forall other, other <> file_path -> files w' !! other = files w !! other) /\
  (forall path, files w' !! path = None <-> files w !! path = None) /\
  dirs w' = dirs w /\
  exists lines, console w' = console w ++ lines.
Proof.
  pose proof (process_cases file_path w) as H. cbv zeta.
  destruct (text_of w file_path) as [content|] eqn:Hf.
  - destruct H as [H | [(p & c & H) | (v & k & out & H & _)]]; rewrite H; simpl.
    + repeat split; auto. exists []. now rewrite app_nil_r.
    + repeat split; auto. eauto.
    + repeat split; auto.
      * intros other Hne. now apply lookup_insert_ne.
      * destruct (decide (path = file_path)) as [->|Hne].
        -- rewrite lookup_insert_eq. discriminate.
        -- now rewrite lookup_insert_ne.
      * destruct (decide (path = file_path)) as [->|Hne].
        -- intros Hnone. apply text_of_None in Hnone. congruence.
        -- now rewrite lookup_insert_ne.
      * exists []. now rewrite app_nil_r.
  - rewrite H. simpl. repeat split; auto. exists []. now rewrite app_nil_r.
Qed.

(** X3. Whatever the outcome, [process_model_file] leaves every other
    file as it is, creates and removes no file, leaves the directories
    as they are and only adds to the console. *)
Theorem process_touches_only_its_file (file_path : str) (w : world) :
  let w' := world_of (process_model_file db file_path w) in
  (forall other, other <> file_path -> files w' !! other = files w !! other) /\
  (forall path, files w' !! path = None <-> files w !! path = None) /\
  dirs w' = dirs w /\
  exists lines, console w' = console w ++ lines.
Proof. exact (process_frame file_path w). Qed.

End Further.

(** ** The two substitutions do not get in each other's way *)

Lemma contains_app_r (w a s : str) : contains w s = true -> contains w (a ++ s) = true.
Proof.
  intros H. apply contains_iff in H as (x & y & ->). apply contains_iff.
  exists (a ++ x), y. now rewrite <- app_assoc.
Qed.

(** A text that begins with another character than [w] does has [w] only
    further on. *)
Lemma contains_other_head (h : N) (w' x s : str) :
  forallb (fun c => negb (N.eqb h c)) x = true ->
  contains (h :: w') (x ++ s) = contains (h :: w') s.
Proof.
  induction x as [|c x IH]; intros Hx; [reflexivity|].
  apply andb_prop in Hx as [Hc Hx]. apply negb_true_iff in Hc.
  cbn [app contains startswith]. rewrite Hc. cbn [andb orb]. now apply IH.
Qed.

(** What the second substitution keeps at the head of a text: any run
    without a capital M. *)
Lemma rewritten_keeps_head (u s t : str) k :
  rewritten MODEL_CONFIG_contentType MODEL_CONFIG_use_api_key k s t ->
  forallb (fun c => negb (N.eqb CAPITAL_M c)) u = true ->
  (startswith u s = true <-> startswith u t = true).
Proof.
  intros H. revert u. induction H as [|s t k H IH|c s t k Hst H IH]; intros u Hu.
  - reflexivity.
  - destruct u as [|x u]; [reflexivity|].
    apply andb_prop in Hu as [Hx _]. apply negb_true_iff in Hx.
    change (MODEL_CONFIG_contentType ++ s)
      with (CAPITAL_M :: skipn 1 MODEL_CONFIG_contentType ++ s).
    change (MODEL_CONFIG_use_api_key ++ t)
      with (CAPITAL_M :: skipn 1 MODEL_CONFIG_use_api_key ++ t).
    cbn [startswith]. rewrite (N.eqb_sym x), Hx. reflexivity.
  - destruct u as [|x u]; [reflexivity|].
    apply andb_prop in Hu as [_ Hu]. cbn [startswith].
    rewrite !andb_true_iff, (IH u Hu). reflexivity.
Qed.

(** The second substitution leaves no call behind. *)
Lemma rewritten_leaves_none (s t : str) k :
  rewritten MODEL_CONFIG_contentType MODEL_CONFIG_use_api_key k s t ->
  contains MODEL_CONFIG_contentType t = false.
Proof.
  induction 1 as [|s t k H IH|c s t k Hst H IH].
  - reflexivity.
  - change (MODEL_CONFIG_use_api_key ++ t)
      with (CAPITAL_M :: skipn 1 MODEL_CONFIG_use_api_key ++ t).
    change MODEL_CONFIG_contentType with (CAPITAL_M :: skipn 1 MODEL_CONFIG_contentType).
    cbn [contains]. rewrite contains_other_head by reflexivity.
    change (CAPITAL_M :: skipn 1 MODEL_CONFIG_contentType) with MODEL_CONFIG_contentType.
    rewrite IH, orb_false_r. reflexivity.
  - cbn [contains]. rewrite IH, orb_false_r.
    destruct (startswith MODEL_CONFIG_contentType (c :: t)) eqn:E; [|reflexivity].
    rewrite <- Hst. change MODEL_CONFIG_contentType
      with (CAPITAL_M :: skipn 1 MODEL_CONFIG_contentType) in *.
    cbn [startswith] in *. apply andb_prop in E as [E1 E2]. rewrite E1. cbn [andb].
    symmetry. now apply (rewritten_keeps_head _ _ _ _ H).
Qed.

(** The second substitution keeps every occurrence of the field name. *)
Lemma rewritten_keeps_field (s t : str) k :
  rewritten MODEL_CONFIG_contentType MODEL_CONFIG_use_api_key k s t ->
  contains (py "use_api_key:") s = true -> contains (py "use_api_key:") t = true.
Proof.
  induction 1 as [|s t k H IH|c s t k Hst H IH]; intros Hc.
  - assumption.
  - apply contains_app_r, IH.
    change (py "use_api_key:") with (117%N :: skipn 1 (py "use_api_key:")) in Hc.
    now rewrite contains_other_head in Hc by reflexivity.
  - cbn [contains] in *. apply orb_true_iff in Hc as [Hc | Hc].
    + apply orb_true_iff. left.
      change (py "use_api_key:") with (117%N :: skipn 1 (py "use_api_key:")) in *.
      cbn [startswith] in *. apply andb_prop in Hc as [E1 E2]. rewrite E1. cbn [andb].
      now apply (rewritten_keeps_head _ _ _ _ H).
    + apply orb_true_iff. right. now apply IH.
Qed.




Section Insertions.

Variable db : ucd.



(** Where a line was put in, the field name is in the text. *)
Lemma inserted_has_field (v s t : str) k :
  inserted db (use_api_key_line v) k s t -> 1 <= k ->
  contains (py "use_api_key:") t = true.
Proof.
  induction 1 as [|a s t k Ha H IH|c s t k Hno H IH]; intros Hk.
  - lia.
  - apply contains_iff. exists (a ++ [NEWLINE; 32%N; 32%N]).
    exists (32%N :: DQUOTE :: v ++ [DQUOTE; 44%N] ++ t).
    unfold use_api_key_line.
    change (py "  use_api_key: ") with (32%N :: 32%N :: py "use_api_key:" ++ [32%N]).
    cbn [app]. repeat (rewrite <- app_assoc; cbn [app]). reflexivity.
  - apply contains_app_r with (a := [c]). now apply IH.
Qed.

Lemma annotated_has_field (v content out : str) k :
  annotated db v k content out -> 1 <= k ->
  contains (py "use_api_key:") out = true.
Proof.
  intros (mid & k' & Hi & Hr) Hk.
  eapply rewritten_keeps_field; [eassumption|].
  eapply inserted_has_field; eassumption.
Qed.

Lemma annotated_has_no_call (v content out : str) k :
  annotated db v k content out -> contains MODEL_CONFIG_contentType out = false.
Proof. intros (mid & k' & _ & Hr). eapply rewritten_leaves_none; eassumption. Qed.

End Insertions.

Section Further2.

Variable db : ucd.

(** X4. Once a call has annotated a file that has a contentType
    declaration followed by a comma, the next call on that file returns
    False and changes nothing. *)
Theorem second_call_is_skipped (file_path content : str) (w w' : world) :
  text_of w file_path = Some content ->
  (exists a line b, content = a ++ line ++ b /\ content_type_line db line) ->
  process_model_file db file_path w = Ok true w' ->
  process_model_file db file_path w' = Ok false w'.
Proof.
  intros Hf Hl Hp. pose proof (process_cases db file_path w) as H. rewrite Hf in H.
  destruct H as [H | [(p & c & H) | (v & k & out & H & Hv & Hann & Hk)]];
    rewrite H in Hp; try discriminate.
  injection Hp as <-. apply (process_already_present db _ out).
  - apply text_of_written. eapply annotated_no_cr; [eassumption..|].
    eapply text_of_no_cr; eassumption.
  - eapply annotated_has_field; eauto.
Qed.

(** X5. The text of a file that a call has updated has no
    MODEL_CONFIG.contentType) left in it. *)
Theorem updated_file_has_no_old_call (file_path : str) (w w' : world) :
  process_model_file db file_path w = Ok true w' ->
  exists out,
    files w' !! file_path = Some out /\
    contains MODEL_CONFIG_contentType out = false.
Proof.
  intros Hp. pose proof (process_cases db file_path w) as H.
  destruct (text_of w file_path) as [content|]; [|rewrite H in Hp; discriminate].
  destruct H as [H | [(p & c & H) | (v & k & out & H & _ & Hann & _)]];
    rewrite H in Hp; try discriminate.
  injection Hp as <-. exists out. split; [apply lookup_insert_eq|].
  eapply annotated_has_no_call; eassumption.
Qed.

Lemma rewritten_makes_no_field (s t : str) k :
  rewritten MODEL_CONFIG_contentType MODEL_CONFIG_use_api_key k s t ->
  contains (py "use_api_key:") s = false -> contains (py "use_api_key:") t = false.
Proof.
  induction 1 as [|s t k H IH|c s t k Hst H IH]; intros Hc.
  - assumption.
  - change (py "use_api_key:") with (117%N :: skipn 1 (py "use_api_key:")) in Hc.
    rewrite contains_other_head in Hc by reflexivity.
    change (contains (py "use_api_key:") (MODEL_CONFIG_use_api_key ++ t))
      with (contains (py "use_api_key:") t).
    now apply IH.
  - cbn [contains] in *. apply orb_false_elim in Hc as [Hc1 Hc2].
    rewrite (IH Hc2), orb_false_r.
    destruct (startswith (py "use_api_key:") (c :: t)) eqn:E; [|reflexivity].
    rewrite <- Hc1. change (py "use_api_key:")
      with (117%N :: skipn 1 (py "use_api_key:")) in *.
    cbn [startswith] in *. apply andb_prop in E as [E1 E2]. rewrite E1. cbn [andb].
    symmetry. now apply (rewritten_keeps_head _ _ _ _ H).
Qed.

(** X6. When no contentType declaration of the file is followed by a
    comma, a call that returns True has added no annotation: the text
    written differs from the text read only by the rewritten calls, and
    use_api_key: does not occur in it. *)
Theorem no_comma_no_annotation (file_path content : str) (w w' : world) :
  text_of w file_path = Some content ->
  (forall a line b, content = a ++ line ++ b -> ~ content_type_line db line) ->
  process_model_file db file_path w = Ok true w' ->
  exists k out,
    w' = with_file file_path out w /\
    rewritten MODEL_CONFIG_contentType MODEL_CONFIG_use_api_key k content out /\
    contains (py "use_api_key:") out = false.
Proof.
  intros Hf Hno Hp.
  assert (Hc : contains (py "use_api_key:") content = false).
  { destruct (contains (py "use_api_key:") content) eqn:E; [|reflexivity].
    rewrite (process_already_present db _ _ _ Hf E) in Hp. discriminate. }
  pose proof (process_cases db file_path w) as H. rewrite Hf in H.
  destruct H as [H | [(p & c & H) | (v & k & out & H & _ & (mid & k' & Hi & Hr) & _)]];
    rewrite H in Hp; try discriminate.
  injection Hp as <-.
  assert (Hk : k = 0).
  { destruct k; [reflexivity|]. exfalso.
    clear -Hi Hno. remember (S k) as n eqn:En. revert Hno En.
    induction Hi as [|a s t j Ha Hi IH|c s t j Hskip Hi IH]; intros Hno En.
    - discriminate.
    - apply (Hno [] a s); [reflexivity | assumption].
    - apply IH; [|assumption]. intros a line b -> Hl.
      apply (Hno (c :: a) line b); [reflexivity | assumption]. }
  subst k. destruct (inserted_0 db _ _ _ _ Hi eq_refl) as [-> _].
  exists k', out. repeat split; [assumption|].
  eapply rewritten_makes_no_field; eassumption.
Qed.

(** The text up to the next quote is a value of word characters exactly
    when the provider pattern finds it. *)
Lemma decl_at_word (field s : str) :
  decl_at db (category_word db) field s =
  match decl_at db not_quote field s with
  | Some (ws, v, r) => if word_value db v then Some (ws, v, r) else None
  | None => None
  end.
Proof.
  destruct (decl_at db (category_word db) field s) as [[[ws v] r]|] eqn:Hw.
  - rewrite (decl_at_weaken db _ _ _ _ _ _ (word_not_quote db) Hw).
    destruct (decl_at_Some db _ _ _ _ _ _ Hw) as (q & q' & _ & _ & _ & Hne & Hv & _).
    unfold word_value. rewrite Hv. now destruct v.
  - destruct (decl_at db not_quote field s) as [[[ws v] r]|] eqn:Hn; [|reflexivity].
    destruct (word_value db v) eqn:Hv; [|reflexivity].
    destruct (decl_at_Some db _ _ _ _ _ _ Hn) as (q & q' & -> & Hws & Hq & Hne & _ & Hq' & _).
    unfold word_value in Hv. apply andb_prop in Hv as [_ Hv].
    rewrite decl_at_intro in Hw; try assumption; [discriminate|].
    destruct (category_word db q') eqn:E; [|reflexivity].
    apply word_not_quote in E. congruence.
Qed.

Lemma group_of_decl (field s ws v r : str) (value : N -> bool) start n :
  decl_at db value field s = Some (ws, v, r) ->
  Sre.group {| Sre.m_start := start; Sre.m_length := n; Sre.m_text := s;
               Sre.m_marks := [(1, length field + length ws + 1 + length v);
                               (0, length field + length ws + 1)] |} 1 = v.
Proof.
  intros Hd. destruct (decl_at_Some db _ _ _ _ _ _ Hd) as (q & q' & -> & _).
  unfold Sre.group. cbn [Sre.m_text Sre.m_marks].
  change (2 * 1 - 2) with 0. change (2 * 1 - 1) with 1. apply between_decl.
Qed.

Lemma search_first_declaration (field content : str) start :
  option_map (fun m => Sre.group m 1)
    (Sre.search_from (field_re db field not_quote) content start)
  = head (field_values db field content).
Proof.
  revert start. induction content as [|c s IH]; intros start;
    cbn [Sre.search_from field_values];
    rewrite (match_field db not_quote field _ (not_quote_quote));
    destruct (decl_at db not_quote field _) as [[[ws v] r]|] eqn:Hd;
    cbn [option_map app head]; try reflexivity.
  - f_equal. eapply group_of_decl; eassumption.
  - f_equal. eapply group_of_decl; eassumption.
  - apply IH.
Qed.

Lemma search_first_word_value (field content : str) start :
  option_map (fun m => Sre.group m 1)
    (Sre.search_from (field_re db field (category_word db)) content start)
  = head (List.filter (word_value db) (field_values db field content)).
Proof.
  revert start. induction content as [|c s IH]; intros start;
    cbn [Sre.search_from field_values];
    rewrite (match_field db (category_word db) field _ (word_not_quote db)), decl_at_word;
    destruct (decl_at db not_quote field _) as [[[ws v] r]|] eqn:Hd;
    cbn [app List.filter]; try reflexivity.
  - destruct (word_value db v) eqn:Hv; [|reflexivity]. cbn [option_map head]. f_equal.
    eapply group_of_decl. rewrite decl_at_word, Hd, Hv. reflexivity.
  - destruct (word_value db v) eqn:Hv; cbn [option_map head app].
    + f_equal. eapply group_of_decl. rewrite decl_at_word, Hd, Hv. reflexivity.
    + apply IH.
  - apply IH.
Qed.

(** X7. The contentType and the recordId that are extracted are the
    values of the first declaration of each in the text, a value being
    the non-empty text between the quotes; later declarations are not
    looked at, and without a declaration the field is absent. *)
Theorem extraction_takes_first_declaration (content : str) :
  option_map (fun m => Sre.group m 1) (Sre.re_search (content_type_re db) content)
    = head (field_values db (py "contentType:") content) /\
  option_map (fun m => Sre.group m 1) (Sre.re_search (record_id_re db) content)
    = head (field_values db (py "recordId:") content).
Proof. split; apply search_first_declaration. Qed.

(** X8. The provider that is extracted is the value of the first
    provider declaration whose value is made of word characters only;
    declarations before it with any other character in the value are
    passed over. *)
Theorem provider_is_first_word_value (content : str) :
  option_map (fun m => Sre.group m 1) (Sre.re_search (provider_re db) content)
    = head (List.filter (word_value db) (field_values db (py "provider:") content)).
Proof. apply search_first_word_value. Qed.

End Further2.

(** ** The run as a whole *)

Lemma candidates_cons_utility (file_path : str) (rest : list str) :
  str_in (name file_path) utility_files = true ->
  candidates (file_path :: rest) = candidates rest.
Proof. intros H. unfold candidates. cbn [List.filter]. now rewrite H. Qed.

Lemma candidates_cons (file_path : str) (rest : list str) :
  str_in (name file_path) utility_files = false ->
  candidates (file_path :: rest) = file_path :: candidates rest.
Proof. intros H. unfold candidates. cbn [List.filter]. now rewrite H. Qed.

Lemma candidates_ts_paths (w : world) (path : str) :
  In path (candidates (ts_paths w)) ->
  str_in (name path) utility_files = false /\ endswith (py ".ts") (name path) = true.
Proof.
  unfold candidates. rewrite filter_In. intros [Hin Hu].
  apply negb_true_iff in Hu. split; [assumption|].
  unfold ts_paths in Hin. destruct (dirs w !! _); [|contradiction].
  now apply filter_In in Hin.
Qed.

Section Run.

Variable db : ucd.

Lemma rglob_ts (w : world) :
  rglob (py "src/lib/models/locked") (py ".ts") w = Ok (ts_paths w) w.
Proof. unfold rglob, ts_paths. now destruct (dirs w !! _). Qed.

Lemma main_unfold (w : world) :
  main db w =
  match for_each db (ts_paths w) 0 0 w with
  | Ok (updated_count, skipped_count) w' =>
      Ok tt (with_lines [summary_title; summary_updated updated_count;
                         summary_skipped skipped_count] w')
  | Raise e w' => Raise e w'
  end.
Proof.
  unfold main. unfold bind at 1. rewrite rglob_ts. unfold bind at 1.
  destruct (for_each db (ts_paths w) 0 0 w) as [[u s] w'|e w']; [|reflexivity].
  unfold bind, print. now rewrite !with_lines_app.
Qed.

(** What the loop keeps and what it counts. *)
Lemma for_each_inv (paths : list str) :
  forall u s (w : world),
    dirs (world_of (for_each db paths u s w)) = dirs w /\
    (forall q, ~ In q (candidates paths) ->
               files (world_of (for_each db paths u s w)) !! q = files w !! q) /\
    (forall q, files (world_of (for_each db paths u s w)) !! q = None <->
               files w !! q = None) /\
    (exists lines, console (world_of (for_each db paths u s w)) = console w ++ lines) /\
    match for_each db paths u s w with
    | Ok (u', s') _ =>
        u' + s' = u + s + length (candidates paths) /\
        forall q, In q (candidates paths) -> files w !! q <> None
    | Raise e _ =>
        e = OSError /\ exists q, In q (candidates paths) /\ files w !! q = None
    end.
Proof.
  induction paths as [|p rest IH]; intros u s w.
  - cbn. split; [reflexivity|]. split; [reflexivity|]. split; [reflexivity|].
    split; [exists []; now rewrite app_nil_r|]. split; [lia | contradiction].
  - destruct (str_in (name p) utility_files) eqn:Hu.
    + rewrite (candidates_cons_utility _ _ Hu).
      replace (for_each db (p :: rest) u s w) with (for_each db rest u s w)
        by (cbn [for_each]; now rewrite Hu).
      apply IH.
    + rewrite (candidates_cons _ _ Hu), (for_each_cons db _ _ _ _ _ Hu).
      pose proof (process_frame db p w) as Hframe.
      pose proof (process_raise_inv db p w) as [Hnone Hraise].
      cbv zeta in Hframe.
      destruct (process_model_file db p w) as [b w1|e w1] eqn:Hp.
      * cbn [world_of] in Hframe. destruct Hframe as (Hother & Hdom & Hdirs & lines1 & Hcons).
        assert (Hp_read : files w !! p <> None).
        { intros E. discriminate (Hnone E). }
        set (w2 := if b then with_lines [updated_line p] w1 else w1).
        assert (Hw2 : dirs w2 = dirs w1 /\ files w2 = files w1 /\
                      exists l, console w2 = console w1 ++ l).
        { unfold w2. destruct b; simpl; repeat split; eauto.
          exists []. now rewrite app_nil_r. }
        destruct Hw2 as (Hd2 & Hf2 & l2 & Hc2).
        set (u2 := if b then S u else u). set (s2 := if b then s else S s).
        replace (if b then for_each db rest (S u) s (with_lines [updated_line p] w1)
                 else for_each db rest u (S s) w1)
          with (for_each db rest u2 s2 w2) by (unfold u2, s2, w2; now destruct b).
        replace (match b with
                 | true => for_each db rest (S u) s (with_lines [updated_line p] w1)
                 | false => for_each db rest u (S s) w1
                 end)
          with (for_each db rest u2 s2 w2) by (unfold u2, s2, w2; now destruct b).
        destruct (IH u2 s2 w2) as (Hdirs' & Hother' & Hdom' & (lines' & Hcons') & Hres).
        split; [congruence|]. split.
        { intros q Hq. rewrite Hother' by (intros Hin; apply Hq; now right).
          rewrite Hf2. apply Hother. intros ->. apply Hq. now left. }
        split.
        { intros q. rewrite Hdom', Hf2. apply Hdom. }
        split.
        { exists (lines1 ++ l2 ++ lines'). rewrite Hcons', Hc2, Hcons.
          now rewrite <- !app_assoc. }
        destruct (for_each db rest u2 s2 w2) as [[u' s'] w3|e w3].
        -- destruct Hres as [Hsum Hread]. split.
           ++ cbn [length]. unfold u2, s2 in Hsum. destruct b; lia.
           ++ intros q [<- | Hq]; [assumption|].
              specialize (Hread q Hq). rewrite Hf2 in Hread.
              intros E. apply Hread. now apply Hdom.
        -- destruct Hres as [-> (q & Hq & Hnoneq)]. split; [reflexivity|].
           exists q. split; [now right|]. rewrite Hf2 in Hnoneq. now apply Hdom.
      * destruct (Hraise e w1 eq_refl) as (-> & -> & Hf). cbn [world_of].
        split; [reflexivity|]. split; [reflexivity|]. split; [reflexivity|].
        split; [exists []; now rewrite app_nil_r|]. split; [reflexivity|].
        exists p. split; [now left | assumption].
Qed.

(** The lines the loop prints are those of the calls and the lines that
    report an update. *)
Lemma for_each_console (paths : list str) :
  forall u s (w : world),
    exists lines,
      console (world_of (for_each db paths u s w)) = console w ++ lines /\
      forall line, In line lines ->
        (exists path, line = updated_line path) \/
        (exists provider content_type, line = no_mapping_line provider content_type).
Proof.
  induction paths as [|p rest IH]; intros u s w.
  - exists []. cbn. rewrite app_nil_r. split; [reflexivity | contradiction].
  - destruct (str_in (name p) utility_files) eqn:Hu.
    + replace (for_each db (p :: rest) u s w) with (for_each db rest u s w)
        by (cbn [for_each]; now rewrite Hu).
      apply IH.
    + rewrite (for_each_cons db _ _ _ _ _ Hu).
      pose proof (process_cases db p w) as Hcases.
      assert (Hext : forall l (x : world) u2 s2,
        console x = console w ++ l ->
        (forall line, In line l ->
           (exists path, line = updated_line path) \/
           (exists provider content_type, line = no_mapping_line provider content_type)) ->
        exists lines,
          console (world_of (for_each db rest u2 s2 x)) = console w ++ lines /\
          forall line, In line lines ->
            (exists path, line = updated_line path) \/
            (exists provider content_type, line = no_mapping_line provider content_type)).
      { intros l x u2 s2 Hx Hl. destruct (IH u2 s2 x) as (lines & Hc & Hlines).
        exists (l ++ lines). rewrite Hc, Hx, <- app_assoc. split; [reflexivity|].
        intros line Hin. apply in_app_iff in Hin as [Hin | Hin]; auto. }
      destruct (text_of w p) as [content|].
      * destruct Hcases as [H | [(pr & ct & H) | (v & k & out & H & _)]]; rewrite H.
        -- apply (Hext []); [now rewrite app_nil_r | contradiction].
        -- apply (Hext [no_mapping_line pr ct]); [reflexivity|].
           intros line [<- | []]. right. eauto.
        -- apply (Hext [updated_line p]); [reflexivity|].
           intros line [<- | []]. left. eauto.
      * rewrite Hcases. cbn [world_of]. exists []. rewrite app_nil_r.
        split; [reflexivity | contradiction].
Qed.

(** The title of the summary is none of these lines. *)
Lemma summary_title_is_no_line (line : str) :
  ((exists path, line = updated_line path) \/
   (exists provider content_type, line = no_mapping_line provider content_type)) ->
  line <> summary_title.
Proof.
  intros [[path ->] | (pr & ct & ->)] H;
    apply (f_equal (fun l => nth 0 l 0%N)) in H; vm_compute in H; discriminate.
Qed.

(** X9. A run that ends normally prints the summary last, and its two
    counts add up to the number of files ending in .ts below the root
    that are not utility files. *)
Theorem summary_counts_add_up (w w' : world) :
  main db w = Ok tt w' ->
  exists updated_count skipped_count lines,
    console w' = console w ++ lines ++
      [summary_title; summary_updated updated_count; summary_skipped skipped_count] /\
    updated_count + skipped_count = length (candidates (ts_paths w)).
Proof.
  rewrite main_unfold.
  destruct (for_each_inv (ts_paths w) 0 0 w) as (_ & _ & _ & (lines & Hcons) & Hres).
  destruct (for_each db (ts_paths w) 0 0 w) as [[u s] w1|e w1]; [|discriminate].
  intros [= <-]. exists u, s, lines. cbn [world_of] in Hcons. split.
  - simpl. now rewrite Hcons, <- app_assoc.
  - now destruct Hres.
Qed.

(** X10. Whether the run ends normally or not, it leaves the directories
    as they are, creates and removes no file, and leaves as it is every
    file that is a utility file by name or whose name does not end in
    .ts. *)
Theorem run_leaves_other_files (w : world) :
  let w' := world_of (main db w) in
  dirs w' = dirs w /\
  (forall path, files w' !! path = None <-> files w !! path = None) /\
  (forall path, ~ In path (candidates (ts_paths w)) ->
                files w' !! path = files w !! path) /\
  (forall path,
     str_in (name path) utility_files = true \/
     endswith (py ".ts") (name path) = false ->
     files w' !! path = files w !! path).
Proof.
  cbv zeta. rewrite main_unfold.
  destruct (for_each_inv (ts_paths w) 0 0 w) as (Hdirs & Hother & Hdom & _ & _).
  assert (E : forall f : world -> gmap str str,
    (forall l x, f (with_lines l x) = f x) ->
    f (world_of
         match for_each db (ts_paths w) 0 0 w with
         | Ok (u, s) w1 =>
             Ok tt (with_lines [summary_title; summary_updated u; summary_skipped s] w1)
         | Raise e w1 => Raise e w1
         end) = f (world_of (for_each db (ts_paths w) 0 0 w))).
  { intros f Hf. destruct (for_each db (ts_paths w) 0 0 w) as [[u s] w1|e w1];
      cbn [world_of]; [apply Hf | reflexivity]. }
  assert (Ed : dirs (world_of
         match for_each db (ts_paths w) 0 0 w with
         | Ok (u, s) w1 =>
             Ok tt (with_lines [summary_title; summary_updated u; summary_skipped s] w1)
         | Raise e w1 => Raise e w1
         end) = dirs (world_of (for_each db (ts_paths w) 0 0 w))).
  { now destruct (for_each db (ts_paths w) 0 0 w) as [[u s] w1|e w1]. }
  rewrite Ed, (E files) by reflexivity.
  repeat split; try assumption; try apply Hdom.
  intros path Hpath. apply Hother. intros Hin.
  apply candidates_ts_paths in Hin as [Hu Hts]. destruct Hpath; congruence.
Qed.

(** X11. When there is no file to open at one of the paths the run is
    to process, the run raises instead of ending normally, and prints
    no summary; and no run raises re.error. *)
Theorem missing_file_aborts_run (w : world) :
  ((exists path, In path (candidates (ts_paths w)) /\ files w !! path = None) ->
   exists e w' lines,
     main db w = Raise e w' /\
     console w' = console w ++ lines /\ ~ In summary_title lines) /\
  (forall w', main db w <> Raise re_error w').
Proof.
  rewrite main_unfold.
  destruct (for_each_inv (ts_paths w) 0 0 w) as (_ & _ & _ & _ & Hres).
  pose proof (for_each_console (ts_paths w) 0 0 w) as Hcons.
  destruct (for_each db (ts_paths w) 0 0 w) as [[u s] w1|e w1].
  - destruct Hres as [_ Hread]. split.
    + intros (path & Hin & Hnone). now destruct (Hread path Hin).
    + discriminate.
  - destruct Hres as [-> Hq]. split.
    + intros _. cbn [world_of] in Hcons. destruct Hcons as (lines & Hc & Hlines).
      exists OSError, w1, lines. split; [reflexivity|]. split; [assumption|].
      intros Hin. now apply (summary_title_is_no_line _ (Hlines _ Hin)).
    + discriminate.
Qed.

End Run.

(** ** Running twice *)

Section Twice.

Variable db : ucd.

(** What a call does depends on the text of the file alone. *)
Lemma content_cases (content : str) :
  quiet db content \/
  (Sre.re_search (content_type_re db) content <> None /\
   contains (py "use_api_key:") content = false /\
   exists v, table_value v /\ plain v = true /\
     forall file_path (w : world),
       text_of w file_path = Some content ->
       process_model_file db file_path w = write_use_api_key db file_path content v w).
Proof.
  assert (Hsame : forall w : world, exists lines, console w = console w ++ lines)
    by (intros w; exists []; now rewrite app_nil_r).
  destruct (contains (py "use_api_key:") content) eqn:Hc.
  { left. intros p w Hf. exists w. split; [now apply (process_already_present db _ content)|].
    auto. }
  destruct (Sre.re_search (provider_re db) content) as [pm|] eqn:Hp.
  2: { left. intros p w Hf. exists w.
       split; [apply (process_no_fields db _ content); auto | auto]. }
  destruct (Sre.re_search (content_type_re db) content) as [cm|] eqn:Hct.
  2: { left. intros p w Hf. exists w.
       split; [apply (process_no_fields db _ content); auto | auto]. }
  assert (Hkey : forall v,
    (exists rm, Sre.re_search (record_id_re db) content = Some rm /\
                SPECIAL_MODELS !! Sre.group rm 1 = Some v) \/
    ((forall rm, Sre.re_search (record_id_re db) content = Some rm ->
                 SPECIAL_MODELS !! Sre.group rm 1 = None) /\
     API_KEY_MAPPING !! (Sre.group pm 1, Sre.group cm 1) = Some v) ->
    exists v, table_value v /\ plain v = true /\
      forall file_path (w : world),
        text_of w file_path = Some content ->
        process_model_file db file_path w = write_use_api_key db file_path content v w).
  { intros v [(rm & Hr & Hv) | (Hr & Hv)]; exists v; (split; [|split]).
    - left. eauto.
    - eapply SPECIAL_MODELS_plain; eassumption.
    - intros p w Hf. eapply process_special; eassumption.
    - right. eauto.
    - eapply API_KEY_MAPPING_plain; eassumption.
    - intros p w Hf. eapply process_mapping; eassumption. }
  assert (Hnokey :
    (forall rm, Sre.re_search (record_id_re db) content = Some rm ->
                SPECIAL_MODELS !! Sre.group rm 1 = None) ->
    API_KEY_MAPPING !! (Sre.group pm 1, Sre.group cm 1) = None ->
    quiet db content).
  { intros Hr Hm p w Hf. eexists. split; [eapply process_unresolved; eassumption|].
    simpl. eauto. }
  destruct (Sre.re_search (record_id_re db) content) as [rm|] eqn:Hr.
  - destruct (SPECIAL_MODELS !! Sre.group rm 1) as [v|] eqn:Hs.
    + right. split; [discriminate|]. split; [reflexivity|]. apply (Hkey v). left. eauto.
    + destruct (API_KEY_MAPPING !! (Sre.group pm 1, Sre.group cm 1)) as [v|] eqn:Hm.
      * right. split; [discriminate|]. split; [reflexivity|]. apply (Hkey v). right.
        split; [|reflexivity]. now intros rm' [= <-].
      * left. apply Hnokey; [|reflexivity]. now intros rm' [= <-].
  - destruct (API_KEY_MAPPING !! (Sre.group pm 1, Sre.group cm 1)) as [v|] eqn:Hm.
    + right. split; [discriminate|]. split; [reflexivity|]. apply (Hkey v). right.
      split; [discriminate | reflexivity].
    + left. apply Hnokey; [discriminate | reflexivity].
Qed.

Lemma quiet_after_call (file_path content : str) (w w' : world) b :
  text_of w file_path = Some content ->
  quiet db content \/ comma_follows db content ->
  process_model_file db file_path w = Ok b w' ->
  exists content', text_of w' file_path = Some content' /\ quiet db content'.
Proof.
  intros Hf Hsafe Hp.
  destruct (content_cases content) as [Hq | (Hct & Hc & v & Htv & Hv & Hw)].
  - destruct (Hq file_path w Hf) as (w1 & H1 & Hfiles & _). rewrite H1 in Hp.
    injection Hp as _ <-. exists content. split; [|assumption].
    rewrite <- Hf. apply text_of_same. now rewrite Hfiles.
  - destruct Hsafe as [Hq | Hcomma].
    + destruct (Hq file_path w Hf) as (w1 & H1 & Hfiles & _). rewrite H1 in Hp.
      injection Hp as _ <-. exists content. split; [|assumption].
      rewrite <- Hf. apply text_of_same. now rewrite Hfiles.
    + rewrite (Hw _ _ Hf) in Hp.
      destruct (written_annotated db file_path content v w Hv) as (k & out & Hout & Hann & Hk).
      rewrite Hout in Hp. injection Hp as _ <-. exists out.
      split.
      { apply text_of_written. eapply annotated_no_cr; [eassumption..|].
        eapply text_of_no_cr; eassumption. }
      intros p x Hx. exists x. split.
      * apply (process_already_present db _ out); [assumption|].
        eapply annotated_has_field; eauto.
      * repeat split. exists []. now rewrite app_nil_r.
Qed.

Lemma str_In_dec (q : str) (l : list str) : {In q l} + {~ In q l}.
Proof. apply in_dec. intros a b. destruct (decide (a = b)); auto. Qed.

(** After a run that ends normally every file it went through is
    quiet. *)
Lemma for_each_quiet (paths : list str) :
  forall u s (w : world) u' s' (w' : world),
    (forall q content, In q (candidates paths) -> text_of w q = Some content ->
                       quiet db content \/ comma_follows db content) ->
    for_each db paths u s w = Ok (u', s') w' ->
    forall q content, In q (candidates paths) -> text_of w' q = Some content ->
                      quiet db content.
Proof.
  induction paths as [|p rest IH]; intros u s w u' s' w' Hsafe Hrun q content Hq Hf.
  - contradiction.
  - destruct (str_in (name p) utility_files) eqn:Hu.
    + rewrite (candidates_cons_utility _ _ Hu) in *.
      cbn [for_each] in Hrun. rewrite Hu in Hrun. eapply IH; eassumption.
    + rewrite (candidates_cons _ _ Hu) in *.
      rewrite (for_each_cons db _ _ _ _ _ Hu) in Hrun.
      pose proof (process_frame db p w) as Hframe. cbv zeta in Hframe.
      pose proof (process_cases db p w) as Hcases.
      destruct (process_model_file db p w) as [b w1|e w1] eqn:Hp; [|discriminate].
      cbn [world_of] in Hframe. destruct Hframe as (Hother & _ & _ & _).
      destruct (text_of w p) as [cp|] eqn:Hfp; [|discriminate Hcases].
      destruct (quiet_after_call p cp w w1 b Hfp (Hsafe p cp (or_introl eq_refl) Hfp) Hp)
        as (cp' & Hfp' & Hquiet').
      set (w2 := if b then with_lines [updated_line p] w1 else w1) in *.
      assert (Hf2 : files w2 = files w1) by (unfold w2; now destruct b).
      assert (Hrun2 : exists u2 s2, for_each db rest u2 s2 w2 = Ok (u', s') w').
      { unfold w2. destruct b; eauto. }
      destruct Hrun2 as (u2 & s2 & Hrun2).
      assert (Hsafe2 : forall q content, In q (candidates rest) ->
                text_of w2 q = Some content -> quiet db content \/ comma_follows db content).
      { intros q0 c0 Hq0 Hf0.
        rewrite (text_of_same w1 w2) in Hf0 by now rewrite Hf2.
        destruct (decide (q0 = p)) as [->|Hne].
        - left. rewrite Hfp' in Hf0. now injection Hf0 as <-.
        - rewrite (text_of_same w w1) in Hf0 by now apply Hother.
          apply (Hsafe q0 c0); [now right | assumption]. }
      destruct (str_In_dec q (candidates rest)) as [Hin | Hnin].
      * eapply IH; eassumption.
      * destruct Hq as [<- | Hq]; [|contradiction].
        destruct (for_each_inv db rest u2 s2 w2) as (_ & Hother2 & _).
        rewrite Hrun2 in Hother2. cbn [world_of] in Hother2.
        rewrite (text_of_same w2 w'), (text_of_same w1 w2), Hfp' in Hf
          by (try apply Hother2; try rewrite Hf2; auto).
        now injection Hf as <-.
Qed.

(** A run over quiet files updates none of them and writes nothing. *)
Lemma for_each_over_quiet (paths : list str) :
  forall u s (w : world),
    (forall q, In q (candidates paths) ->
               exists content, text_of w q = Some content /\ quiet db content) ->
    exists w',
      for_each db paths u s w = Ok (u, s + length (candidates paths)) w' /\
      files w' = files w /\ dirs w' = dirs w /\
      exists lines, console w' = console w ++ lines.
Proof.
  induction paths as [|p rest IH]; intros u s w Hall.
  - exists w. cbn. rewrite Nat.add_0_r. repeat split. exists []. now rewrite app_nil_r.
  - destruct (str_in (name p) utility_files) eqn:Hu.
    + rewrite (candidates_cons_utility _ _ Hu) in *.
      cbn [for_each]. rewrite Hu. now apply IH.
    + rewrite (candidates_cons _ _ Hu) in *.
      rewrite (for_each_cons db _ _ _ _ _ Hu).
      destruct (Hall p (or_introl eq_refl)) as (cp & Hfp & Hq).
      destruct (Hq p w Hfp) as (w1 & Hp & Hf1 & Hd1 & l1 & Hc1). rewrite Hp.
      destruct (IH u (S s) w1) as (w' & Hrun & Hf' & Hd' & l' & Hc').
      { intros q Hin. rewrite (text_of_same w w1) by now rewrite Hf1.
        apply Hall. now right. }
      exists w'. rewrite Hrun. cbn [length].
      replace (s + S (length (candidates rest))) with (S s + length (candidates rest)) by lia.
      split; [reflexivity|]. split; [congruence|]. split; [congruence|].
      exists (l1 ++ l'). now rewrite Hc', Hc1, <- app_assoc.
Qed.

(** X12. When, in every file of the walk from which a contentType is
    extracted, some contentType declaration is followed by a comma, a
    second run after a run that ended normally updates no file: it ends
    normally, writes nothing, and its summary counts zero files updated
    and all of them skipped. *)
Theorem second_run_updates_nothing (w w1 : world) :
  (forall path content,
     In path (candidates (ts_paths w)) -> text_of w path = Some content ->
     Sre.re_search (content_type_re db) content <> None ->
     exists a line b, content = a ++ line ++ b /\ content_type_line db line) ->
  main db w = Ok tt w1 ->
  exists w2 lines,
    main db w1 = Ok tt w2 /\
    files w2 = files w1 /\ dirs w2 = dirs w1 /\
    console w2 = console w1 ++ lines ++
      [summary_title; summary_updated 0;
       summary_skipped (length (candidates (ts_paths w)))].
Proof.
  intros Hcomma Hrun. rewrite main_unfold in Hrun.
  destruct (for_each_inv db (ts_paths w) 0 0 w) as (Hdirs & _ & Hdom & _ & Hres).
  destruct (for_each db (ts_paths w) 0 0 w) as [[u s] w0|e w0] eqn:Hloop; [|discriminate].
  injection Hrun as <-. cbn [world_of] in *. destruct Hres as [_ Hread].
  assert (Hpaths : ts_paths (with_lines [summary_title; summary_updated u;
                                         summary_skipped s] w0) = ts_paths w).
  { unfold ts_paths. cbn [dirs with_lines]. now rewrite Hdirs. }
  rewrite main_unfold, Hpaths.
  destruct (for_each_over_quiet (ts_paths w) 0 0
              (with_lines [summary_title; summary_updated u; summary_skipped s] w0))
    as (w2 & Hrun2 & Hf2 & Hd2 & lines & Hc2).
  { intros q Hq.
    rewrite (text_of_same w0 (with_lines _ w0)) by reflexivity.
    destruct (text_of w0 q) as [c|] eqn:Hfq.
    - exists c. split; [reflexivity|].
      eapply (for_each_quiet (ts_paths w)); try eassumption.
      intros q0 c0 Hq0 Hf0. right. intros Hct. eapply Hcomma; eassumption.
    - apply text_of_None, Hdom in Hfq. now destruct (Hread q Hq). }
  rewrite Hrun2. eexists. exists lines. split; [reflexivity|].
  cbn [files dirs console with_lines] in *. repeat split; try assumption.
  rewrite Hc2. cbn [Nat.add]. now rewrite <- app_assoc.
Qed.

End Twice.

(** ** ASCII texts and the Unicode tables *)

Lemma match_same (s0 : str) (p p' : Sre.pattern) :
  Forall2 (same_op s0) p p' ->
  forall (s : str) pos ms, incl s s0 ->
    Sre.sre_match p s pos ms = Sre.sre_match p' s pos ms.
Proof.
  induction 1 as [|o o' p p' Ho Hp IH]; intros s pos ms Hs; [reflexivity|].
  destruct Ho as [c|f g Hfg|lo f g Hfg|i].
  - rewrite !SreFacts.match_LITERAL. destruct s as [|x s]; [reflexivity|].
    destruct (N.eqb x c); [|reflexivity]. apply IH. intros y Hy. apply Hs. now right.
  - rewrite !SreFacts.match_IN. destruct s as [|x s]; [reflexivity|].
    rewrite (Hfg x) by (apply Hs; now left).
    destruct (g x); [|reflexivity]. apply IH. intros y Hy. apply Hs. now right.
  - cbn [Sre.sre_match]. generalize 0 as count. revert pos.
    induction s as [|x s IHs]; intros pos count.
    + now rewrite (IH [] pos ms Hs).
    + rewrite (IH (x :: s) pos ms Hs), (Hfg x) by (apply Hs; now left).
      destruct (g x); [|reflexivity].
      rewrite IHs by (intros y Hy; apply Hs; now right). reflexivity.
  - rewrite !SreFacts.match_MARK. now apply IH.
Qed.

Lemma search_same (s0 : str) (p p' : Sre.pattern) :
  Forall2 (same_op s0) p p' ->
  forall (s : str) start, incl s s0 ->
    Sre.search_from p s start = Sre.search_from p' s start.
Proof.
  intros Hp. induction s as [|x s IH]; intros start Hs; cbn [Sre.search_from];
    rewrite (match_same s0 p p' Hp _ 0 [] Hs); [reflexivity|].
  destruct (Sre.sre_match p' (x :: s) 0 []) as [[n ms]|]; [reflexivity|].
  apply IH. intros y Hy. apply Hs. now right.
Qed.

Lemma sub_same (s0 : str) (p p' : Sre.pattern) t :
  Forall2 (same_op s0) p p' ->
  forall (s : str) k, incl s s0 -> Sre.sub_from p t s k = Sre.sub_from p' t s k.
Proof.
  intros Hp. induction s as [|x s IH]; intros k Hs; cbn [Sre.sub_from].
  - now rewrite (match_same s0 p p' Hp [] 0 [] Hs).
  - assert (Hs' : incl s s0) by (intros y Hy; apply Hs; now right).
    destruct k as [|k]; [|now apply IH].
    rewrite (match_same s0 p p' Hp (x :: s) 0 [] Hs).
    destruct (Sre.sre_match p' (x :: s) 0 []) as [[n ms]|]; [|now rewrite IH].
    destruct n; now rewrite IH.
Qed.

Lemma same_literals (s0 w : str) : Forall2 (same_op s0) (Sre.literals w) (Sre.literals w).
Proof. induction w; constructor; [constructor | assumption]. Qed.

Section Tables.

Variables db db' : ucd.

Variable content : str.
Hypothesis ascii : Forall (fun c => (c < 128)%N) content.

Lemma ascii_space c : In c content -> category_space db c = category_space db' c.
Proof.
  intros Hc. pose proof (proj1 (List.Forall_forall _ _) ascii c Hc) as Ha.
  unfold category_space. apply N.ltb_lt in Ha. now rewrite Ha.
Qed.

Lemma ascii_word c : In c content -> category_word db c = category_word db' c.
Proof.
  intros Hc. pose proof (proj1 (List.Forall_forall _ _) ascii c Hc) as Ha.
  unfold category_word. apply N.ltb_lt in Ha. now rewrite Ha.
Qed.

Lemma same_field_re (field : str) (value value' : N -> bool) :
  (forall c, In c content -> value c = value' c) ->
  Forall2 (same_op content) (field_re db field value) (field_re db' field value').
Proof.
  intros Hv. unfold field_re. apply Forall2_app; [apply same_literals|].
  repeat constructor; auto using ascii_space.
Qed.

Lemma same_content_type_line_re :
  Forall2 (same_op content) (content_type_line_re db) (content_type_line_re db').
Proof.
  unfold content_type_line_re. constructor; [constructor|].
  apply Forall2_app; [apply same_literals|].
  repeat constructor; auto using ascii_space.
Qed.

(** X14. On a file whose text is ASCII the call does not depend on the
    Unicode tables of the interpreter: with any two tables it returns
    the same value and ends in the same world. *)
Theorem ascii_text_ignores_unicode_tables (file_path : str) (w : world) :
  text_of w file_path = Some content ->
  process_model_file db file_path w = process_model_file db' file_path w.
Proof using ascii.
  intros Hf. unfold process_model_file, bind at 1 3, read_text. rewrite Hf.
  unfold Sre.re_search, provider_re, content_type_re, record_id_re.
  rewrite (search_same content _ _ (same_field_re _ _ _ ascii_word) content 0)
    by apply incl_refl.
  rewrite !(search_same content _ _
              (same_field_re _ not_quote not_quote (fun _ _ => eq_refl)) content 0)
    by apply incl_refl.
  assert (Hw : forall v, write_use_api_key db file_path content v w
                         = write_use_api_key db' file_path content v w).
  { intros v. unfold write_use_api_key, re_sub, Sre.re_sub.
    change (Sre.groups (content_type_line_re db)) with 1.
    change (Sre.groups (content_type_line_re db')) with 1.
    destruct (Sre.parse_template 1 (use_api_key_template v)) as [t|]; [|reflexivity].
    cbn [option_map].
    now rewrite (sub_same content _ _ t same_content_type_line_re content 0)
      by apply incl_refl. }
  destruct (contains (py "use_api_key:") content); [reflexivity|].
  destruct (Sre.search_from _ content 0) as [pm|]; [|reflexivity].
  destruct (Sre.search_from _ content 0) as [cm|]; [|reflexivity].
  destruct (match option_map _ _ with Some _ => _ | None => _ end); [apply Hw|].
  destruct (API_KEY_MAPPING !! _); [apply Hw | reflexivity].
Qed.

End Tables.

Section Further3.

Variable db : ucd.

(** X13. The text written by a call that returns True is the text read,
    annotated with a value of one of the two tables: no other value is
    ever written. *)
Theorem update_writes_a_table_value (file_path content : str) (w w' : world) :
  text_of w file_path = Some content ->
  process_model_file db file_path w = Ok true w' ->
  exists v k out,
    table_value v /\ w' = with_file file_path out w /\ annotated db v k content out.
Proof.
  intros Hf Hp. pose proof (process_cases db file_path w) as H. rewrite Hf in H.
  destruct H as [H | [(p & c & H) | (v & k & out & H & Hv & Hann & _)]];
    rewrite H in Hp; try discriminate.
  injection Hp as <-. now exists v, k, out.
Qed.

Lemma no_content_type_line (content : str) :
  Sre.re_search (content_type_line_re db) content = None ->
  forall a line b, content = a ++ line ++ b -> ~ content_type_line db line.
Proof.
  intros Hs a line b Hc Hl.
  pose proof (SreFacts.search_from_None _ _ _ Hs a (line ++ b) Hc) as Hm.
  destruct (match_content_type_line_intro db line b Hl) as [ms H]. congruence.
Qed.

End Further3.

Section Written.

Variable db : ucd.




End Written.

(** * Closed instances of the further properties *)

(** X1 on the directory whose name ends in .ts. *)
Lemma missing_file_raises_OSError_witness :
  process_model_file ucd_ascii legacy_ts tree_with_directory
    = Raise OSError tree_with_directory.
Proof.
  exact (proj1 (missing_file_raises_OSError ucd_ascii legacy_ts tree_with_directory)
           eq_refl).
Defined.

(** X2 on the model with no mapping. *)
Lemma skipped_file_is_not_written_witness :
  exists w',
    process_model_file ucd_ascii Veo3_ts (one_file (py "Veo3.ts") unmapped_file)
      = Ok false w' /\
    files w' = files (one_file (py "Veo3.ts") unmapped_file) /\
    dirs w' = dirs (one_file (py "Veo3.ts") unmapped_file).
Proof.
  destruct (process_model_file ucd_ascii Veo3_ts (one_file (py "Veo3.ts") unmapped_file))
    as [[|] w'|e w'] eqn:Hp;
    [ vm_compute in Hp; discriminate Hp | | vm_compute in Hp; discriminate Hp ].
  destruct (skipped_file_is_not_written ucd_ascii _ _ _ Hp) as (Hf & Hd & _).
  exists w'. auto.
Defined.

(** X3 on the sample tree: updating one model leaves the utility file
    with the same text alone. *)
Lemma process_touches_only_its_file_witness :
  files (world_of (process_model_file ucd_ascii Edit_ts sample_tree)) !! index_ts
    = Some image_editing_file.
Proof.
  rewrite (proj1 (process_touches_only_its_file ucd_ascii Edit_ts sample_tree)
             index_ts ltac:(discriminate)).
  reflexivity.
Defined.

(** X4 on the mapped model: the second call returns False. *)
Lemma second_call_is_skipped_witness :
  exists w',
    process_model_file ucd_ascii Veo3_ts (one_file (py "Veo3.ts") image_editing_file)
      = Ok true w' /\
    process_model_file ucd_ascii Veo3_ts w' = Ok false w'.
Proof.
  destruct (process_model_file ucd_ascii Veo3_ts
              (one_file (py "Veo3.ts") image_editing_file))
    as [[|] w'|e w'] eqn:Hp;
    [ | vm_compute in Hp; discriminate Hp | vm_compute in Hp; discriminate Hp ].
  destruct (Sre.re_search (content_type_line_re ucd_ascii) image_editing_file)
    as [lm|] eqn:Hl; [|vm_compute in Hl; discriminate Hl].
  exists w'. split; [reflexivity|].
  apply (second_call_is_skipped ucd_ascii Veo3_ts image_editing_file
           (one_file (py "Veo3.ts") image_editing_file) w' eq_refl);
    [eapply search_content_type_line; eassumption | assumption].
Defined.

(** X5 on the override model, which has a call to rewrite. *)
Lemma updated_file_has_no_old_call_witness :
  contains MODEL_CONFIG_contentType veo3_file = true /\
  exists w' out,
    process_model_file ucd_ascii Veo3_ts (one_file (py "Veo3.ts") veo3_file)
      = Ok true w' /\
    files w' !! Veo3_ts = Some out /\
    contains MODEL_CONFIG_contentType out = false.
Proof.
  split; [reflexivity|].
  destruct (process_model_file ucd_ascii Veo3_ts (one_file (py "Veo3.ts") veo3_file))
    as [[|] w'|e w'] eqn:Hp;
    [ | vm_compute in Hp; discriminate Hp | vm_compute in Hp; discriminate Hp ].
  destruct (updated_file_has_no_old_call ucd_ascii _ _ _ Hp) as (out & Hf & Hc).
  exists w', out. auto.
Defined.

(** X6 on the model with no comma after its contentType. *)
Lemma no_comma_no_annotation_witness :
  exists w' k out,
    process_model_file ucd_ascii Veo3_ts (one_file (py "Veo3.ts") no_comma_file)
      = Ok true w' /\
    w' = with_file Veo3_ts out (one_file (py "Veo3.ts") no_comma_file) /\
    rewritten MODEL_CONFIG_contentType MODEL_CONFIG_use_api_key k no_comma_file out /\
    contains (py "use_api_key:") out = false.
Proof.
  destruct (process_model_file ucd_ascii Veo3_ts (one_file (py "Veo3.ts") no_comma_file))
    as [[|] w'|e w'] eqn:Hp;
    [ | vm_compute in Hp; discriminate Hp | vm_compute in Hp; discriminate Hp ].
  destruct (no_comma_no_annotation ucd_ascii Veo3_ts no_comma_file
              (one_file (py "Veo3.ts") no_comma_file) w' eq_refl
              (no_content_type_line ucd_ascii no_comma_file eq_refl) Hp)
    as (k & out & Hw & Hr & Hc).
  exists w', k, out. auto.
Defined.

(** X9 on the sample tree: three files are gone through. *)
Lemma summary_counts_add_up_witness :
  exists w' updated_count skipped_count lines,
    main ucd_ascii sample_tree = Ok tt w' /\
    console w' = console sample_tree ++ lines ++
      [summary_title; summary_updated updated_count; summary_skipped skipped_count] /\
    updated_count + skipped_count = 3.
Proof.
  destruct (main ucd_ascii sample_tree) as [[] w'|e w'] eqn:Hrun;
    [|vm_compute in Hrun; discriminate Hrun].
  destruct (summary_counts_add_up ucd_ascii sample_tree w' Hrun)
    as (u & s & lines & Hc & Hsum).
  exists w', u, s, lines. auto.
Defined.

(** X10 on the sample tree: the utility file and the file that is not
    TypeScript keep the text of a model that would be updated. *)
Lemma run_leaves_other_files_witness :
  files (world_of (main ucd_ascii sample_tree)) !! index_ts = Some image_editing_file /\
  files (world_of (main ucd_ascii sample_tree)) !! (locked ++ SLASH :: py "README.md")
    = Some image_editing_file.
Proof.
  destruct (run_leaves_other_files ucd_ascii sample_tree) as (_ & _ & _ & H).
  split.
  - rewrite (H index_ts (or_introl eq_refl)). reflexivity.
  - rewrite (H (locked ++ SLASH :: py "README.md") (or_intror eq_refl)). reflexivity.
Defined.

(** X11 on the tree with a directory whose name ends in .ts. *)
Lemma missing_file_aborts_run_witness :
  exists e w' lines,
    main ucd_ascii tree_with_directory = Raise e w' /\
    console w' = console tree_with_directory ++ lines /\ ~ In summary_title lines.
Proof.
  apply (proj1 (missing_file_aborts_run ucd_ascii tree_with_directory)).
  exists legacy_ts. split; [|reflexivity].
  vm_compute. right. left. reflexivity.
Defined.

(** X12 on the sample tree. *)
Lemma second_run_updates_nothing_witness :
  exists w1 w2 lines,
    main ucd_ascii sample_tree = Ok tt w1 /\
    main ucd_ascii w1 = Ok tt w2 /\
    files w2 = files w1 /\
    console w2 = console w1 ++ lines ++
      [summary_title; summary_updated 0; summary_skipped 3].
Proof.
  destruct (main ucd_ascii sample_tree) as [[] w1|e w1] eqn:Hrun;
    [|vm_compute in Hrun; discriminate Hrun].
  destruct (second_run_updates_nothing ucd_ascii sample_tree w1)
    as (w2 & lines & Hrun2 & Hf & _ & Hc); [|assumption|].
  - intros path content Hin Hf _.
    assert (Hl : Sre.re_search (content_type_line_re ucd_ascii) content <> None).
    { vm_compute in Hin. destruct Hin as [<- | [<- | [<- | []]]];
        vm_compute in Hf; injection Hf as <-; vm_compute; discriminate. }
    destruct (Sre.re_search (content_type_line_re ucd_ascii) content) as [lm|] eqn:E;
      [|congruence].
    eapply search_content_type_line; eassumption.
  - exists w1, w2, lines. auto.
Defined.

(** X13 on the mapped model. *)
Lemma update_writes_a_table_value_witness :
  exists w' v k out,
    process_model_file ucd_ascii Veo3_ts (one_file (py "Veo3.ts") image_editing_file)
      = Ok true w' /\
    table_value v /\
    w' = with_file Veo3_ts out (one_file (py "Veo3.ts") image_editing_file) /\
    annotated ucd_ascii v k image_editing_file out.
Proof.
  destruct (process_model_file ucd_ascii Veo3_ts
              (one_file (py "Veo3.ts") image_editing_file))
    as [[|] w'|e w'] eqn:Hp;
    [ | vm_compute in Hp; discriminate Hp | vm_compute in Hp; discriminate Hp ].
  destruct (update_writes_a_table_value ucd_ascii Veo3_ts image_editing_file
              (one_file (py "Veo3.ts") image_editing_file) w' eq_refl Hp)
    as (v & k & out & Hv & Hw & Hann).
  exists w', v, k, out. auto.
Defined.

(** X14 on the override model, with tables that answer no everywhere and
    tables that answer yes everywhere. *)
Lemma ascii_text_ignores_unicode_tables_witness :
  process_model_file ucd_ascii Veo3_ts (one_file (py "Veo3.ts") veo3_file)
    = process_model_file ucd_all Veo3_ts (one_file (py "Veo3.ts") veo3_file).
Proof.
  apply (ascii_text_ignores_unicode_tables ucd_ascii ucd_all veo3_file);
    [|reflexivity].
  apply List.Forall_forall. intros c Hc. apply N.ltb_lt. revert c Hc.
  apply List.forallb_forall. vm_compute. reflexivity.
Defined.


